(** * torchbnn: the Bayesian convolution layer of [torchbnn/modules/conv.py]

    A shallow embedding of [_BayesConvNd] and [BayesConv2d].

    The layer is a thin wrapper around PyTorch: it owns four statistic
    tensors, fills them at construction, and on every [forward] draws a
    weight (and bias) sample that it hands to [F.conv2d].  Everything that
    lives inside PyTorch (scalar arithmetic, the random generator, the
    initialisers' bounds, [F.pad], [F.conv2d]) is a field of the class
    [Torch] below; everything the Python file itself does (the checks, the
    shapes, the order of the draws, the dispatch on [padding_mode]) is
    written out. *)

From Stdlib Require Import ZArith String List Bool Lia.
Import ListNotations.

Local Open Scope string_scope.
Local Open Scope Z_scope.

(** ** Exceptions and the state-and-error monad *)

(** The exceptions that can leave the layer's code.  [ValueError],
    [ZeroDivisionError], [IndexError] and [TypeError] are raised by the
    Python file's own statements; [TorchError] stands for any exception
    that propagates out of a call into PyTorch. *)
Inductive exn : Type :=
| ValueError (msg : string)
| ZeroDivisionError
| IndexError
| TypeError
| TorchError (msg : string).

Inductive result (A : Type) : Type :=
| Ok (a : A)
| Err (e : exn).

Arguments Ok {A} a.
Arguments Err {A} e.

(** A computation reads and advances the process-wide random generator
    (a state of type [G]) and either returns or raises. *)
Definition M (G A : Type) : Type := G -> result A * G.

Definition ret {G A} (a : A) : M G A := fun g => (Ok a, g).

Definition raise {G A} (e : exn) : M G A := fun g => (Err e, g).

Definition bind {G A B} (m : M G A) (f : A -> M G B) : M G B :=
  fun g =>
    match m g with
    | (Ok a, g') => f a g'
    | (Err e, g') => (Err e, g')
    end.

Declare Scope monad_scope.
Delimit Scope monad_scope with monad.
Notation "x <- m ;; k" := (bind m (fun x => k))
  (at level 61, m at next level, right associativity) : monad_scope.
Notation "' pat <- m ;; k" := (bind m (fun x => match x with pat => k end))
  (at level 61, pat pattern, m at next level, right associativity) : monad_scope.
Local Open Scope monad_scope.

(** A call into PyTorch that may raise: [inl msg] is the exception. *)
Definition torch_outcome {A} (r : string + A) : result A :=
  match r with
  | inl msg => Err (TorchError msg)
  | inr a => Ok a
  end.

Definition from_torch {G A} (r : string + A) : M G A :=
  fun g => (torch_outcome r, g).

(** Draw [n] values one after the other from a generator. *)
Fixpoint draw {G A} (d : G -> A * G) (n : nat) (g : G) : list A * G :=
  match n with
  | O => ([], g)
  | S n' =>
      let (x, g1) := d g in
      let (xs, g2) := draw d n' g1 in
      (x :: xs, g2)
  end.

(** ** Python integers and tuples *)

(** [a % b] on Python integers: floor modulo, [ZeroDivisionError] at 0. *)
Definition py_mod {G} (a b : Z) : M G Z :=
  if b =? 0 then raise ZeroDivisionError else ret (a mod b).

(** [a // b] on Python integers: floor division, [ZeroDivisionError] at 0. *)
Definition py_floordiv {G} (a b : Z) : M G Z :=
  if b =? 0 then raise ZeroDivisionError else ret (a / b).

(** [t[i]] on a tuple, for a non-negative literal index. *)
Definition py_index {G} (t : list Z) (i : nat) : M G Z :=
  match nth_error t i with
  | Some x => ret x
  | None => raise IndexError
  end.

(** An argument that is either one integer or a tuple of integers. *)
Inductive int_or_tuple : Type :=
| Int (n : Z)
| Tuple (t : list Z).

(** [torch.nn.modules.utils._pair]: an iterable is passed through as it
    is, anything else is repeated twice. *)
Definition _pair (x : int_or_tuple) : list Z :=
  match x with
  | Tuple t => t
  | Int n => [n; n]
  end.

(** ** Tensors *)

Record Tensor (F : Type) : Type := mkTensor {
  shape : list Z;
  data : list F
}.

Arguments mkTensor {F} shape data.
Arguments shape {F} t.
Arguments data {F} t.

Definition numel (dims : list Z) : Z := fold_right Z.mul 1 dims.

Definition wf_tensor {F} (t : Tensor F) : Prop :=
  length (data t) = Z.to_nat (numel (shape t)).

Fixpoint shape_eqb (s1 s2 : list Z) : bool :=
  match s1, s2 with
  | [], [] => true
  | d1 :: r1, d2 :: r2 => (d1 =? d2) && shape_eqb r1 r2
  | _, _ => false
  end.

Fixpoint zip_with {A B C} (f : A -> B -> C) (xs : list A) (ys : list B) : list C :=
  match xs, ys with
  | x :: xs', y :: ys' => f x y :: zip_with f xs' ys'
  | _, _ => []
  end.

(** ** What PyTorch provides *)

(** [F] holds the numbers of the program: the Python numbers given to
    the constructor and, among them, the values an element of a tensor can
    take; [G] is the state of the random generator.  The layer never looks
    inside any of these operations. *)
Class Torch (F G : Type) : Type := {
  (** the conversion of a Python number to the element type of the
      tensors: it rounds, and raises on a number it cannot convert *)
  to_dtype : F -> string + F;
  (** the exception [torch.Tensor] raises for sizes none of which is
      negative but which it cannot provide (a size beyond the machine's
      integers, not enough memory), if any *)
  can_allocate : list Z -> string + unit;
  (** element-wise kernels of [+], [*], [torch.exp] and unary minus *)
  fadd : F -> F -> F;
  fmul : F -> F -> F;
  fexp : F -> F;
  fneg : F -> F;
  (** what a freshly allocated, not yet written element holds *)
  uninit : F;
  (** one standard-normal draw *)
  randn : G -> F * G;
  (** one draw of [uniform_(lo, hi)] *)
  uniform : F -> F -> G -> F * G;
  (** the bound [init.kaiming_uniform_(t, a=math.sqrt(5))] derives from
      the shape of [t], or the exception it raises *)
  kaiming_bound : list Z -> string + F;
  (** [init._calculate_fan_in_and_fan_out], on the shape of its argument *)
  _calculate_fan_in_and_fan_out : list Z -> string + (Z * Z);
  (** the float [1 / math.sqrt(n)] for [n > 0] *)
  inv_sqrt : Z -> F;
  (** [F.pad(input, pad, mode=...)] *)
  pad : Tensor F -> list Z -> string -> string + Tensor F;
  (** [F.conv2d(input, weight, bias, stride, padding, dilation, groups)] *)
  conv2d : Tensor F -> Tensor F -> option (Tensor F) ->
           list Z -> list Z -> list Z -> Z -> string + Tensor F
}.

Section TensorOps.
Context {F G : Type} `{T : Torch F G}.

(** [torch.Tensor(d0, d1, ...)]: a new tensor of the given sizes; PyTorch
    refuses a negative size, and sizes it cannot provide. *)
Definition torch_Tensor (dims : list Z) : M G (Tensor F) :=
  if forallb (fun d => 0 <=? d) dims
  then
    _ <- from_torch (can_allocate dims) ;;
    ret (mkTensor dims (repeat uninit (Z.to_nat (numel dims))))
  else raise (TorchError "negative dimension").

(** The tensor [t] with every element overwritten with [c]. *)
Definition filled (t : Tensor F) (c : F) : Tensor F :=
  mkTensor (shape t) (map (fun _ => c) (data t)).

(** What the conversion makes of [v], where it does not raise. *)
Definition converted (v : F) : F :=
  match to_dtype v with
  | inr c => c
  | inl _ => v
  end.

(** [t.data.fill_(v)]: the Python number [v] is converted to the element
    type of [t], and every element is overwritten with the result. *)
Definition fill_ (t : Tensor F) (v : F) : M G (Tensor F) :=
  c <- from_torch (to_dtype v) ;;
  ret (filled t c).

(** [t.uniform_(lo, hi)]: every element is overwritten with a draw. *)
Definition uniform_ (t : Tensor F) (lo hi : F) : M G (Tensor F) :=
  fun g =>
    let (xs, g') := draw (uniform lo hi) (length (data t)) g in
    (Ok (mkTensor (shape t) xs), g').

(** [init.kaiming_uniform_(t, a=math.sqrt(5))]: PyTorch computes a
    bound from the fan-in of [t] and calls [t.uniform_(-bound, bound)]. *)
Definition kaiming_uniform_ (t : Tensor F) : M G (Tensor F) :=
  bound <- from_torch (kaiming_bound (shape t)) ;;
  uniform_ t (fneg bound) bound.

(** [torch.randn_like(t)]: a new tensor of the size of [t]. *)
Definition randn_like (t : Tensor F) : M G (Tensor F) :=
  fun g =>
    let (xs, g') := draw randn (Z.to_nat (numel (shape t))) g in
    (Ok (mkTensor (shape t) xs), g').

Definition torch_exp (t : Tensor F) : Tensor F :=
  mkTensor (shape t) (map fexp (data t)).

(** Element-wise binary operations.  Between tensors of one shape they
    work element by element; PyTorch's broadcasting between different
    shapes is not part of this embedding (the constructor only builds
    statistic tensors of equal shape) and is reported as a
    [TorchError]. *)
Definition elementwise (f : F -> F -> F) (a b : Tensor F) : M G (Tensor F) :=
  if shape_eqb (shape a) (shape b)
  then ret (mkTensor (shape a) (zip_with f (data a) (data b)))
  else raise (TorchError "broadcasting is not modelled").

Definition tensor_add : Tensor F -> Tensor F -> M G (Tensor F) := elementwise fadd.
Definition tensor_mul : Tensor F -> Tensor F -> M G (Tensor F) := elementwise fmul.

(** [mu + torch.exp(log_sigma) * torch.randn_like(log_sigma)], with
    Python's evaluation order; [None] operands raise [TypeError]. *)
Definition sample (mu log_sigma : option (Tensor F)) : M G (Tensor F) :=
  match log_sigma with
  | None => raise TypeError
  | Some ls =>
      let e := torch_exp ls in
      noise <- randn_like ls ;;
      scaled <- tensor_mul e noise ;;
      match mu with
      | None => raise TypeError
      | Some m => tensor_add m scaled
      end
  end.
End TensorOps.

(** ** The layer *)

(** The attributes [_BayesConvNd.__init__] sets on [self].  The four
    statistic tensors are [None] ([register_parameter(name, None)]) or a
    tensor. *)
Record Layer (F : Type) : Type := mkLayer {
  in_channels : Z;
  out_channels : Z;
  kernel_size : list Z;
  stride : list Z;
  padding : list Z;
  dilation : list Z;
  transposed : bool;
  output_padding : list Z;
  groups : Z;
  padding_mode : string;
  prior_mu : F;
  prior_log_sigma : F;
  bias : bool;
  weight_mu : option (Tensor F);
  weight_log_sigma : option (Tensor F);
  bias_mu : option (Tensor F);
  bias_log_sigma : option (Tensor F)
}.

Arguments mkLayer {F}.
Arguments in_channels {F} l.
Arguments out_channels {F} l.
Arguments kernel_size {F} l.
Arguments stride {F} l.
Arguments padding {F} l.
Arguments dilation {F} l.
Arguments transposed {F} l.
Arguments output_padding {F} l.
Arguments groups {F} l.
Arguments padding_mode {F} l.
Arguments prior_mu {F} l.
Arguments prior_log_sigma {F} l.
Arguments bias {F} l.
Arguments weight_mu {F} l.
Arguments weight_log_sigma {F} l.
Arguments bias_mu {F} l.
Arguments bias_log_sigma {F} l.

Definition set_weight_mu {F} (l : Layer F) (t : option (Tensor F)) : Layer F :=
  mkLayer (in_channels l) (out_channels l) (kernel_size l) (stride l)
    (padding l) (dilation l) (transposed l) (output_padding l) (groups l)
    (padding_mode l) (prior_mu l) (prior_log_sigma l) (bias l)
    t (weight_log_sigma l) (bias_mu l) (bias_log_sigma l).

Definition set_weight_log_sigma {F} (l : Layer F) (t : option (Tensor F)) : Layer F :=
  mkLayer (in_channels l) (out_channels l) (kernel_size l) (stride l)
    (padding l) (dilation l) (transposed l) (output_padding l) (groups l)
    (padding_mode l) (prior_mu l) (prior_log_sigma l) (bias l)
    (weight_mu l) t (bias_mu l) (bias_log_sigma l).

Definition set_bias_mu {F} (l : Layer F) (t : option (Tensor F)) : Layer F :=
  mkLayer (in_channels l) (out_channels l) (kernel_size l) (stride l)
    (padding l) (dilation l) (transposed l) (output_padding l) (groups l)
    (padding_mode l) (prior_mu l) (prior_log_sigma l) (bias l)
    (weight_mu l) (weight_log_sigma l) t (bias_log_sigma l).

Definition set_bias_log_sigma {F} (l : Layer F) (t : option (Tensor F)) : Layer F :=
  mkLayer (in_channels l) (out_channels l) (kernel_size l) (stride l)
    (padding l) (dilation l) (transposed l) (output_padding l) (groups l)
    (padding_mode l) (prior_mu l) (prior_log_sigma l) (bias l)
    (weight_mu l) (weight_log_sigma l) (bias_mu l) t.

Definition set_padding_mode {F} (l : Layer F) (m : string) : Layer F :=
  mkLayer (in_channels l) (out_channels l) (kernel_size l) (stride l)
    (padding l) (dilation l) (transposed l) (output_padding l) (groups l)
    m (prior_mu l) (prior_log_sigma l) (bias l)
    (weight_mu l) (weight_log_sigma l) (bias_mu l) (bias_log_sigma l).

Definition set_prior_mu {F} (l : Layer F) (v : F) : Layer F :=
  mkLayer (in_channels l) (out_channels l) (kernel_size l) (stride l)
    (padding l) (dilation l) (transposed l) (output_padding l) (groups l)
    (padding_mode l) v (prior_log_sigma l) (bias l)
    (weight_mu l) (weight_log_sigma l) (bias_mu l) (bias_log_sigma l).

(** A parameter that an in-place initialiser is applied to must be a
    tensor: a method call on [None] raises. *)
Definition the_tensor {F G} (p : option (Tensor F)) : M G (Tensor F) :=
  match p with
  | Some t => ret t
  | None => raise TypeError
  end.

Module _BayesConvNd.
Section WithTorch.
Context {F G : Type} `{T : Torch F G}.

(** Lines 72-81.  [1 / math.sqrt(fan_in)] raises [ValueError] for a
    negative and [ZeroDivisionError] for a zero [fan_in]. *)
Definition reset_parameters (self : Layer F) : M G (Layer F) :=
  w <- the_tensor (weight_mu self) ;;
  w' <- kaiming_uniform_ w ;;
  let self := set_weight_mu self (Some w') in
  ls <- the_tensor (weight_log_sigma self) ;;
  ls' <- fill_ ls (prior_log_sigma self) ;;
  let self := set_weight_log_sigma self (Some ls') in
  if bias self then
    w <- the_tensor (weight_mu self) ;;
    '(fan_in, _) <- from_torch (_calculate_fan_in_and_fan_out (shape w)) ;;
    bound <- (if fan_in <? 0 then raise (ValueError "math domain error")
              else if fan_in =? 0 then raise ZeroDivisionError
              else ret (inv_sqrt fan_in)) ;;
    b <- the_tensor (bias_mu self) ;;
    b' <- uniform_ b (fneg bound) bound ;;
    let self := set_bias_mu self (Some b') in
    bls <- the_tensor (bias_log_sigma self) ;;
    bls' <- fill_ bls (prior_log_sigma self) ;;
    ret (set_bias_log_sigma self (Some bls'))
  else ret self.

(** Lines 28-70: the two checks, the attributes, the allocation of the
    statistic tensors, [reset_parameters]. *)
Definition __init__ (prior_mu prior_log_sigma : F)
    (in_channels out_channels : Z)
    (kernel_size stride padding dilation : list Z)
    (transposed : bool) (output_padding : list Z)
    (groups : Z) (bias : bool) (padding_mode : string) : M G (Layer F) :=
  r <- py_mod in_channels groups ;;
  if negb (r =? 0) then raise (ValueError "in_channels must be divisible by groups") else
  r <- py_mod out_channels groups ;;
  if negb (r =? 0) then raise (ValueError "out_channels must be divisible by groups") else
  '(weight_mu, weight_log_sigma) <-
    (if transposed then
       q <- py_floordiv out_channels groups ;;
       wm <- torch_Tensor (in_channels :: q :: kernel_size) ;;
       q <- py_floordiv out_channels groups ;;
       wls <- torch_Tensor (in_channels :: q :: kernel_size) ;;
       ret (wm, wls)
     else
       q <- py_floordiv in_channels groups ;;
       wm <- torch_Tensor (out_channels :: q :: kernel_size) ;;
       q <- py_floordiv in_channels groups ;;
       wls <- torch_Tensor (out_channels :: q :: kernel_size) ;;
       ret (wm, wls)) ;;
  '(bias_mu, bias_log_sigma) <-
    (if bias then
       bm <- torch_Tensor [out_channels] ;;
       bls <- torch_Tensor [out_channels] ;;
       ret (Some bm, Some bls)
     else ret (None, None)) ;;
  reset_parameters
    (mkLayer in_channels out_channels kernel_size stride padding dilation
       transposed output_padding groups padding_mode prior_mu prior_log_sigma
       bias (Some weight_mu) (Some weight_log_sigma) bias_mu bias_log_sigma).
End WithTorch.
End _BayesConvNd.

Module BayesConv2d.
Section WithTorch.
Context {F G : Type} `{T : Torch F G}.

(** Lines 105-112. *)
Definition __init__ (prior_mu prior_log_sigma : F)
    (in_channels out_channels : Z)
    (kernel_size stride padding dilation : int_or_tuple)
    (groups : Z) (bias : bool) (padding_mode : string) : M G (Layer F) :=
  let kernel_size := _pair kernel_size in
  let stride := _pair stride in
  let padding := _pair padding in
  let dilation := _pair dilation in
  _BayesConvNd.__init__ prior_mu prior_log_sigma in_channels out_channels
    kernel_size stride padding dilation false (_pair (Int 0)) groups bias
    padding_mode.

(** Lines 121-128 of [conv2d_forward]: the call into the engine, once
    the weight and the bias of this call are known. *)
Definition engine_call (self : Layer F) (input weight : Tensor F)
    (bias : option (Tensor F)) : M G (Tensor F) :=
  if (padding_mode self =? "circular")%string then
    p1 <- py_index (padding self) 1 ;;
    p1' <- py_index (padding self) 1 ;;
    p0 <- py_index (padding self) 0 ;;
    p0' <- py_index (padding self) 0 ;;
    let expanded_padding := [(p1 + 1) / 2; p1' / 2; (p0 + 1) / 2; p0' / 2] in
    padded <- from_torch (pad input expanded_padding "circular") ;;
    from_torch (conv2d padded weight bias (stride self) (_pair (Int 0))
                  (dilation self) (groups self))
  else
    from_torch (conv2d input weight bias (stride self) (padding self)
                  (dilation self) (groups self)).

(** Lines 114-128: the bias sample (lines 116-119), then the engine call. *)
Definition conv2d_forward (self : Layer F) (input weight : Tensor F) : M G (Tensor F) :=
  bias <- (if bias self then
             b <- sample (bias_mu self) (bias_log_sigma self) ;;
             ret (Some b)
           else ret None) ;;
  engine_call self input weight bias.

(** Lines 130-133. *)
Definition forward (self : Layer F) (input : Tensor F) : M G (Tensor F) :=
  weight <- sample (weight_mu self) (weight_log_sigma self) ;;
  conv2d_forward self input weight.
End WithTorch.
End BayesConv2d.

(** ** An instance on the integers, to run the definitions *)

(** Scalars are integers, standing for the floats that hold them, with
    exact arithmetic; the conversion to the element type is float32's
    rounding of an integer; the generator is a counter that hands out its
    own value; [F.conv2d] is the cross-correlation PyTorch documents, with
    zero padding and its checks on the shapes, and [F.pad] is circular
    padding. *)
Module Ints.
(** [exp] on the integers: 0 below -103, where [exp] is 0 in float32,
    and 1 at 0; elsewhere a stand-in with integer values (0 below 0, a
    power of two above). *)
Definition exp_int (z : Z) : Z := if z <? 0 then 0 else 2 ^ z.

(** A Python integer converted to float32: refused outside the 64-bit
    integers, else rounded to 24 significant bits, ties to even. *)
Definition round_f32 (z : Z) : string + Z :=
  if (z <? - 2 ^ 63) || (2 ^ 63 <=? z) then inl "Overflow when unpacking long"
  else
    let a := Z.abs z in
    if a <? 2 ^ 24 then inr z
    else
      let q := 2 ^ (Z.log2 a - 23) in
      let m := a / q in
      let r := a mod q in
      let m' := if 2 * r <? q then m
                else if q <? 2 * r then m + 1
                else if Z.even m then m else m + 1 in
      inr (Z.sgn z * (m' * q)).

Definition allocate_int (dims : list Z) : string + unit :=
  if forallb (fun d => d <? 2 ^ 63) dims then inr tt
  else inl "Overflow when unpacking long".

Definition fans (dims : list Z) : string + (Z * Z) :=
  match dims with
  | o :: c :: ks => inr (c * numel ks, o * numel ks)
  | _ => inl "Fan in and fan out can not be computed for tensor with fewer than 2 dimensions"
  end.

Definition bound_int (dims : list Z) : string + Z :=
  match fans dims with
  | inl msg => inl msg
  | inr (fan_in, _) => if fan_in =? 0 then inl "float division by zero" else inr (1000 / Z.sqrt fan_in)
  end.

Definition zrange (n : Z) : list Z := map Z.of_nat (seq 0 (Z.to_nat n)).

Definition zsum (xs : list Z) : Z := fold_right Z.add 0 xs.

Definition tensor_ok (t : Tensor Z) : bool :=
  forallb (fun d => 0 <=? d) (shape t)
  && (Z.of_nat (length (data t)) =? numel (shape t)).

(** Element [(n, c, i, j)] of a tensor of sizes [(_, C, H, W)], and 0
    where [(i, j)] falls outside it. *)
Definition at4 (t : Tensor Z) (C H W n c i j : Z) : Z :=
  if (0 <=? i) && (i <? H) && (0 <=? j) && (j <? W)
  then nth (Z.to_nat (((n * C + c) * H + i) * W + j)) (data t) 0
  else 0.

(** A stride, padding or dilation: two entries, or one used for both. *)
Definition two (xs : list Z) : option (Z * Z) :=
  match xs with
  | [a] => Some (a, a)
  | [a; b] => Some (a, b)
  | _ => None
  end.

Definition conv2d_int (x w : Tensor Z) (b : option (Tensor Z))
    (stride padding dilation : list Z) (groups : Z) : string + Tensor Z :=
  match shape x, shape w, two stride, two padding, two dilation with
  | [Nb; C; H; W], [Oc; Cg; kh; kw], Some (sh, sw), Some (ph, pw), Some (dh, dw) =>
      let bias_ok := match b with
                     | None => true
                     | Some t => shape_eqb (shape t) [Oc] && tensor_ok t
                     end in
      if negb (tensor_ok x && tensor_ok w && bias_ok)
      then inl "malformed input, weight or bias"
      else if negb ((0 <? groups) && (0 <? sh) && (0 <? sw) && (0 <=? ph)
                    && (0 <=? pw) && (0 <? dh) && (0 <? dw) && (0 <? kh) && (0 <? kw))
      then inl "non-positive stride, dilation, kernel or groups, or negative padding"
      else if negb ((C =? Cg * groups) && (Oc mod groups =? 0))
      then inl "the channels of the input do not match the weight and groups"
      else
        let Ho := (H + 2 * ph - dh * (kh - 1) - 1) / sh + 1 in
        let Wo := (W + 2 * pw - dw * (kw - 1) - 1) / sw + 1 in
        if (Ho <=? 0) || (Wo <=? 0)
        then inl "kernel size can't be greater than actual input size"
        else
          let Og := Oc / groups in
          inr (mkTensor [Nb; Oc; Ho; Wo]
                 (flat_map (fun n =>
                  flat_map (fun o =>
                  flat_map (fun i =>
                  map (fun j =>
                    match b with
                    | Some t => nth (Z.to_nat o) (data t) 0
                    | None => 0
                    end +
                    zsum (flat_map (fun c =>
                          flat_map (fun u =>
                          map (fun v =>
                            at4 x C H W n (o / Og * Cg + c)
                              (i * sh - ph + u * dh) (j * sw - pw + v * dw)
                            * at4 w Cg kh kw o c u v)
                          (zrange kw)) (zrange kh)) (zrange Cg)))
                  (zrange Wo)) (zrange Ho)) (zrange Oc)) (zrange Nb)))
  | _, _, _, _, _ => inl "expected 4-dimensional input and weight"
  end.

Definition pad_circular (x : Tensor Z) (pads : list Z) (mode : string)
  : string + Tensor Z :=
  if negb (mode =? "circular")%string
  then inl "padding mode not provided by this instance"
  else
    match shape x, pads with
    | [Nb; C; H; W], [l; r; t; b] =>
        if negb (tensor_ok x && (0 <=? l) && (l <=? W) && (0 <=? r) && (r <=? W)
                 && (0 <=? t) && (t <=? H) && (0 <=? b) && (b <=? H))
        then inl "Padding value causes wrapping around more than once."
        else
          inr (mkTensor [Nb; C; H + t + b; W + l + r]
                 (flat_map (fun n =>
                  flat_map (fun c =>
                  flat_map (fun i =>
                  map (fun j => at4 x C H W n c ((i - t) mod H) ((j - l) mod W))
                  (zrange (W + l + r))) (zrange (H + t + b))) (zrange C)) (zrange Nb)))
    | _, _ => inl "expected a 4-dimensional input and four pad amounts"
    end.

#[global] Instance torch : Torch Z Z := {|
  to_dtype := round_f32;
  can_allocate := allocate_int;
  fadd := Z.add;
  fmul := Z.mul;
  fexp := exp_int;
  fneg := Z.opp;
  uninit := 0;
  randn := fun g => (g, g + 1);
  uniform := fun lo hi g => (lo + g mod (hi - lo + 1), g + 1);
  kaiming_bound := bound_int;
  _calculate_fan_in_and_fan_out := fans;
  inv_sqrt := fun n => 1000 / Z.sqrt n;
  pad := pad_circular;
  conv2d := conv2d_int
|}.

(** A 1x4x3x3 input of ones: four channels, as the layers below expect. *)
Definition ones : Tensor Z := mkTensor [1; 4; 3; 3] (repeat 1 36).

(** [BayesConv2d(0, log_sigma, 4, 2, kernel_size=3, stride=1, padding=1,
    dilation=1, groups=2, bias=bias, padding_mode=mode)], built with the
    generator at 0. *)
Definition build (log_sigma : Z) (bias : bool) (mode : string)
  : result (Layer Z) * Z :=
  BayesConv2d.__init__ 0 log_sigma 4 2 (Int 3) (Int 1) (Int 1) (Int 1) 2
    bias mode 0.

Definition no_layer : Layer Z :=
  mkLayer 0 0 [] [] [] [] false [] 0 "" 0 0 false None None None None.

Definition built (log_sigma : Z) (bias : bool) (mode : string) : Layer Z :=
  match fst (build log_sigma bias mode) with
  | Ok l => l
  | Err _ => no_layer
  end.

(** A transposed layer, built by [_BayesConvNd.__init__] itself:
    4 input channels, 6 output channels, 2 groups, a 3x3 kernel. *)
Definition built_transposed : Layer Z :=
  match fst (_BayesConvNd.__init__ 0 1 4 6 [3; 3] [1; 1] [1; 1] [1; 1]
               true [0; 0] 2 true "zeros" 0) with
  | Ok l => l
  | Err _ => no_layer
  end.

(** [BayesConv2d] given a kernel size of three entries. *)
Definition built_3d : Layer Z :=
  match fst (BayesConv2d.__init__ 0 1 4 2 (Tuple [3; 3; 3]) (Int 1) (Int 1)
               (Int 1) 2 false "zeros" 0) with
  | Ok l => l
  | Err _ => no_layer
  end.

(** The same PyTorch with initialisers that leave a tensor without
    elements alone, as later versions do: the Kaiming bound of a zero
    fan-in is reported as 0 where [torch] raises. *)
Definition bound_lenient (dims : list Z) : string + Z :=
  match fans dims with
  | inl msg => inl msg
  | inr (fan_in, _) => if fan_in =? 0 then inr 0 else inr (1000 / Z.sqrt fan_in)
  end.

Definition torch_lenient : Torch Z Z := {|
  to_dtype := round_f32;
  can_allocate := allocate_int;
  fadd := Z.add;
  fmul := Z.mul;
  fexp := exp_int;
  fneg := Z.opp;
  uninit := 0;
  randn := fun g => (g, g + 1);
  uniform := fun lo hi g => (lo + g mod (hi - lo + 1), g + 1);
  kaiming_bound := bound_lenient;
  _calculate_fan_in_and_fan_out := fans;
  inv_sqrt := fun n => 1000 / Z.sqrt n;
  pad := pad_circular;
  conv2d := conv2d_int
|}.

(** A layer whose log-sigma tensors have moved away from the prior, as
    after training, and what [reset_parameters] makes of it. *)
Definition trained : Layer Z :=
  set_bias_log_sigma
    (set_weight_log_sigma (built 1 true "zeros")
       (Some (mkTensor [2; 2; 3; 3] (repeat 5 36))))
    (Some (mkTensor [2] [7; -2])).

Definition retrained : Layer Z :=
  match fst (_BayesConvNd.reset_parameters trained 100) with
  | Ok l => l
  | Err _ => no_layer
  end.

(** [BayesConv2d] given [padding=(1,)] and [padding_mode='circular']. *)
Definition built_short_padding : Layer Z :=
  match fst (BayesConv2d.__init__ 0 1 4 2 (Int 3) (Int 1) (Tuple [1]) (Int 1)
               2 true "circular" 0) with
  | Ok l => l
  | Err _ => no_layer
  end.
End Ints.

(** ** Vocabulary of the statements *)

(** The two messages with which the constructor rejects a configuration. *)
Definition InvalidConfiguration (e : exn) : Prop :=
  e = ValueError "in_channels must be divisible by groups" \/
  e = ValueError "out_channels must be divisible by groups".

(** Every exception the computation [m] can raise satisfies [P]. *)
Definition raises_only {G A} (P : exn -> Prop) (m : M G A) : Prop :=
  forall g e, fst (m g) = Err e -> P e.

Section Vocabulary.
Context {F G : Type} `{T : Torch F G}.

(** [mu + exp(log_sigma) * noise], element by element. *)
Definition reparam (mu log_sigma noise : Tensor F) : Tensor F :=
  mkTensor (shape mu)
    (zip_with fadd (data mu) (zip_with fmul (map fexp (data log_sigma)) (data noise))).

(** The noise tensor [torch.randn_like t] returns in generator state
    [g], and the state it leaves. *)
Definition noise_like (t : Tensor F) (g : G) : Tensor F * G :=
  let (xs, g') := draw randn (Z.to_nat (numel (shape t))) g in
  (mkTensor (shape t) xs, g').

(** A pair of statistic tensors as the constructor builds them: both
    present, of one shape, with as many elements as the shape says. *)
Definition wf_stats (mu log_sigma : option (Tensor F)) : Prop :=
  exists m ls,
    mu = Some m /\ log_sigma = Some ls /\
    shape m = shape ls /\ wf_tensor m /\ wf_tensor ls.

Definition wf_layer (l : Layer F) : Prop :=
  wf_stats (weight_mu l) (weight_log_sigma l) /\
  (bias l = true -> wf_stats (bias_mu l) (bias_log_sigma l)).

(** The tensor [torch.Tensor] returns for non-negative sizes. *)
Definition allocated (dims : list Z) : Tensor F :=
  mkTensor dims (repeat uninit (Z.to_nat (numel dims))).

(** The sizes the constructor gives both weight tensors. *)
Definition weight_dims (transposed : bool) (in_channels out_channels groups : Z)
    (kernel_size : list Z) : list Z :=
  if transposed
  then in_channels :: out_channels / groups :: kernel_size
  else out_channels :: in_channels / groups :: kernel_size.

(** The weight and the bias a forward call started in generator state
    [g] samples, and the generator state after its draws: the weight
    noise is drawn first, the bias noise second and only when the layer
    has a bias. *)
Definition forward_samples (l : Layer F) (g : G)
  : option (Tensor F * option (Tensor F) * G) :=
  match weight_mu l, weight_log_sigma l with
  | Some wm, Some wls =>
      let (wn, g1) := noise_like wls g in
      if bias l then
        match bias_mu l, bias_log_sigma l with
        | Some bm, Some bls =>
            let (bn, g2) := noise_like bls g1 in
            Some (reparam wm wls wn, Some (reparam bm bls bn), g2)
        | _, _ => None
        end
      else Some (reparam wm wls wn, None, g1)
  | _, _ => None
  end.

(** Apply [f] to the layer a construction returned, if it returned one. *)
Definition on_layer (f : Layer F -> Layer F) (r : result (Layer F) * G)
  : result (Layer F) * G :=
  match r with
  | (Ok l, g) => (Ok (f l), g)
  | (Err e, g) => (Err e, g)
  end.

(** The bias a forward call passes on when every draw is ignored. *)
Definition bias_mean (l : Layer F) : option (Tensor F) :=
  if bias l then bias_mu l else None.
End Vocabulary.

(** ** Equality of tensors up to an equivalence of scalars *)

Section Equivalence.
Context {F : Type} (eqv : F -> F -> Prop).

Definition tensor_eqv (a b : Tensor F) : Prop :=
  shape a = shape b /\ Forall2 eqv (data a) (data b).

Definition option_eqv (a b : option (Tensor F)) : Prop :=
  match a, b with
  | Some x, Some y => tensor_eqv x y
  | None, None => True
  | _, _ => False
  end.

(** Two results of a forward call: the same exception, or tensors
    that are equal up to [eqv]. *)
Definition outcome_eqv (a b : result (Tensor F)) : Prop :=
  match a, b with
  | Ok x, Ok y => tensor_eqv x y
  | Err e, Err e' => e = e'
  | _, _ => False
  end.
End Equivalence.

(** What the deterministic limit rests on.  [eqv] is an equivalence of
    scalars under which a mean plus zero times a finite noise is the mean,
    [randn] draws finite values, and [F.conv2d] gives equivalent results on
    equivalent weights and biases.  Exact arithmetic satisfies this with
    equality for [eqv]; IEEE floats do not (there [0 * -1 = -0] and
    [-0 + 0 = +0]) but do with, for [eqv], equality of the values, the
    zeros of either sign taken as one and the NaNs as one. *)
Class LimitLaws {F G : Type} `{T : Torch F G}
    (eqv : F -> F -> Prop) (finite : F -> Prop) (zero : F) : Prop := {
  eqv_refl : forall x, eqv x x;
  eqv_sym : forall x y, eqv x y -> eqv y x;
  eqv_trans : forall x y z, eqv x y -> eqv y z -> eqv x z;
  mean_plus_zero : forall m n, finite n -> eqv (fadd m (fmul zero n)) m;
  randn_finite : forall g, finite (fst (randn g));
  conv2d_respects : forall x w w' b b' s p d gr,
    tensor_eqv eqv w w' -> option_eqv eqv b b' ->
    match conv2d x w b s p d gr, conv2d x w' b' s p d gr with
    | inr y, inr y' => tensor_eqv eqv y y'
    | inl msg, inl msg' => msg = msg'
    | _, _ => False
    end
}.

(** The number of standard-normal draws one forward call makes. *)
Definition draws_per_forward {F} (l : Layer F) : nat :=
  match weight_log_sigma l with
  | Some wls => Z.to_nat (numel (shape wls))
  | None => 0
  end +
  (if bias l
   then match bias_log_sigma l with
        | Some bls => Z.to_nat (numel (shape bls))
        | None => 0
        end
   else 0).

(** ** Restoring a pickled layer *)

(** The instance dictionary of a Python object: attribute name to value. *)
Definition attrs (V : Type) : Type := string -> option V.

Definition hasattr {V} (o : attrs V) (name : string) : bool :=
  match o name with
  | Some _ => true
  | None => false
  end.

Definition setattr {V} (o : attrs V) (name : string) (v : V) : attrs V :=
  fun k => if (k =? name)%string then Some v else o k.

(** [d.update(s)]: the entries of [s] override those of [d]. *)
Definition dict_update {V} (d s : attrs V) : attrs V :=
  fun k => match s k with
           | Some v => Some v
           | None => d k
           end.

(** Lines 99-102 of [_BayesConvNd].  [Module_setstate] is
    [torch.nn.Module.__setstate__] and [str] embeds a Python string among
    the attribute values. *)
Definition __setstate__ {V} (Module_setstate : attrs V -> attrs V -> attrs V)
    (str : string -> V) (self state : attrs V) : attrs V :=
  let self := Module_setstate self state in
  if negb (hasattr self "padding_mode")
  then setattr self "padding_mode" (str "zeros")
  else self.

(** ** Lemmas on the monad and on lists *)

Lemma bind_Ok {G A B} (m : M G A) (f : A -> M G B) g b g' :
  bind m f g = (Ok b, g') ->
  exists a g1, m g = (Ok a, g1) /\ f a g1 = (Ok b, g').
Proof.
  unfold bind. destruct (m g) as [[a|e] g1]; intros H.
  - exists a, g1. split; [reflexivity | exact H].
  - discriminate H.
Qed.

Lemma bind_eq_Ok {G A B} (m : M G A) (f : A -> M G B) g a g1 :
  m g = (Ok a, g1) -> bind m f g = f a g1.
Proof. intros H. unfold bind. rewrite H. reflexivity. Qed.

Lemma raises_only_ret {G A} (P : exn -> Prop) (a : A) :
  raises_only (G := G) P (ret a).
Proof. intros g e H. discriminate H. Qed.

Lemma raises_only_raise {G A} (P : exn -> Prop) (e : exn) :
  P e -> raises_only (G := G) (A := A) P (raise e).
Proof. intros HP g e' H. injection H as <-. exact HP. Qed.

Lemma raises_only_from_torch {G A} (P : exn -> Prop) (r : string + A) :
  (forall msg, P (TorchError msg)) -> raises_only (G := G) P (from_torch r).
Proof.
  intros HP g e H. destruct r as [msg|a]; simpl in H.
  - injection H as <-. apply HP.
  - discriminate H.
Qed.

Lemma raises_only_bind {G A B} (P : exn -> Prop) (m : M G A) (f : A -> M G B) :
  raises_only P m -> (forall a, raises_only P (f a)) -> raises_only P (bind m f).
Proof.
  intros Hm Hf g e. unfold bind. specialize (Hm g).
  destruct (m g) as [[a|e0] g1]; simpl in *.
  - apply Hf.
  - intros H. injection H as <-. now apply Hm.
Qed.

Lemma draw_length {G A} (d : G -> A * G) n g :
  length (fst (draw d n g)) = n.
Proof.
  revert g. induction n as [|n IH]; intros g; simpl.
  - reflexivity.
  - destruct (d g) as [x g1]. specialize (IH g1).
    destruct (draw d n g1) as [xs g2]. simpl in *. now rewrite IH.
Qed.

Lemma shape_eqb_eq s1 s2 : shape_eqb s1 s2 = true <-> s1 = s2.
Proof.
  revert s2. induction s1 as [|d1 r1 IH]; intros [|d2 r2]; simpl;
    try (split; [discriminate | congruence]); try tauto.
  rewrite andb_true_iff, Z.eqb_eq, IH. split.
  - intros [-> ->]. reflexivity.
  - intros H. injection H as -> ->. tauto.
Qed.

Lemma shape_eqb_refl s : shape_eqb s s = true.
Proof. now apply shape_eqb_eq. Qed.

Lemma zip_with_length {A B C} (f : A -> B -> C) xs ys :
  length (zip_with f xs ys) = Nat.min (length xs) (length ys).
Proof.
  revert ys. induction xs as [|x xs IH]; intros [|y ys]; simpl; auto.
Qed.

Lemma zip_with_nth {A B C} (f : A -> B -> C) xs ys i da db dc :
  (i < length xs)%nat -> (i < length ys)%nat ->
  nth i (zip_with f xs ys) dc = f (nth i xs da) (nth i ys db).
Proof.
  revert ys i. induction xs as [|x xs IH]; intros [|y ys] [|i]; simpl;
    try lia; auto.
  intros H1 H2. apply IH; lia.
Qed.

Lemma Forall_map_const {A B} (v : B) (xs : list A) :
  Forall (fun x => x = v) (map (fun _ => v) xs).
Proof. induction xs; simpl; constructor; auto. Qed.

Lemma ret_Ok {G A} (a b : A) (g g' : G) :
  ret a g = (Ok b, g') -> a = b /\ g = g'.
Proof. unfold ret. intros H. injection H as -> ->. auto. Qed.

Lemma py_mod_Ok {G} a b r (g g' : G) :
  py_mod a b g = (Ok r, g') -> b <> 0 /\ r = a mod b /\ g' = g.
Proof.
  unfold py_mod. destruct (b =? 0) eqn:E; [discriminate|].
  intros H. apply ret_Ok in H. apply Z.eqb_neq in E. intuition congruence.
Qed.

Lemma py_floordiv_nonzero {G} a b (g : G) :
  b <> 0 -> py_floordiv a b g = (Ok (a / b), g).
Proof.
  intros H. unfold py_floordiv. apply Z.eqb_neq in H. rewrite H. reflexivity.
Qed.

Section TensorFacts.
Context {F G : Type} `{T : Torch F G}.

Lemma from_torch_Ok {A} (r : string + A) (g g' : G) a :
  from_torch r g = (Ok a, g') -> r = inr a /\ g' = g.
Proof.
  unfold from_torch. destruct r as [msg|a0]; cbn; intros H.
  - discriminate H.
  - injection H as -> ->. auto.
Qed.

Lemma torch_Tensor_Ok dims (g g' : G) t :
  torch_Tensor dims g = (Ok t, g') ->
  t = mkTensor dims (repeat uninit (Z.to_nat (numel dims))) /\ g' = g.
Proof.
  unfold torch_Tensor. destruct (forallb _ dims); [|discriminate].
  intros H. apply bind_Ok in H. destruct H as (u & g1 & Hc & H).
  apply from_torch_Ok in Hc. destruct Hc as [_ ->].
  apply ret_Ok in H. intuition congruence.
Qed.

Lemma fill__Ok (t : Tensor F) v (g g' : G) t' :
  fill_ t v g = (Ok t', g') ->
  exists c, to_dtype v = inr c /\ t' = filled t c /\ g' = g.
Proof.
  unfold fill_. intros H. apply bind_Ok in H. destruct H as (c & g1 & Hc & H).
  apply from_torch_Ok in Hc. destruct Hc as [Hc ->].
  apply ret_Ok in H. destruct H as [<- <-]. exists c. auto.
Qed.

Lemma uniform__Ok t lo hi (g g' : G) t' :
  uniform_ t lo hi g = (Ok t', g') ->
  shape t' = shape t /\ length (data t') = length (data t).
Proof.
  unfold uniform_. pose proof (draw_length (uniform lo hi) (length (data t)) g) as L.
  destruct (draw _ _ g) as [xs g1]. intros H. injection H as <- <-.
  simpl in *. auto.
Qed.

Lemma kaiming_uniform__Ok t (g g' : G) t' :
  kaiming_uniform_ t g = (Ok t', g') ->
  shape t' = shape t /\ length (data t') = length (data t).
Proof.
  unfold kaiming_uniform_. intros H. apply bind_Ok in H.
  destruct H as (bound & g1 & _ & H). now apply uniform__Ok in H.
Qed.

Lemma the_tensor_Ok (p : option (Tensor F)) (g g' : G) t :
  the_tensor p g = (Ok t, g') -> p = Some t /\ g' = g.
Proof.
  destruct p as [t0|]; simpl; [|discriminate].
  intros H. apply ret_Ok in H. intuition congruence.
Qed.

Lemma converted_eq v c : to_dtype v = inr c -> converted v = c.
Proof. unfold converted. now intros ->. Qed.

Lemma fill__wf (t : Tensor F) v : wf_tensor t -> wf_tensor (filled t v).
Proof. unfold wf_tensor, filled. simpl. now rewrite length_map. Qed.

Lemma fill__all (t : Tensor F) v : Forall (fun x => x = v) (data (filled t v)).
Proof. apply Forall_map_const. Qed.

(** What a successful [reset_parameters] leaves behind. *)
Lemma reset_parameters_Ok (l l' : Layer F) (g g' : G) wm wls :
  weight_mu l = Some wm -> weight_log_sigma l = Some wls ->
  _BayesConvNd.reset_parameters l g = (Ok l', g') ->
  in_channels l' = in_channels l /\ out_channels l' = out_channels l /\
  kernel_size l' = kernel_size l /\ stride l' = stride l /\
  padding l' = padding l /\ dilation l' = dilation l /\
  transposed l' = transposed l /\ output_padding l' = output_padding l /\
  groups l' = groups l /\ padding_mode l' = padding_mode l /\
  prior_mu l' = prior_mu l /\ prior_log_sigma l' = prior_log_sigma l /\
  bias l' = bias l /\
  (exists wm', weight_mu l' = Some wm' /\ shape wm' = shape wm /\
               length (data wm') = length (data wm)) /\
  weight_log_sigma l' = Some (filled wls (converted (prior_log_sigma l))) /\
  (if bias l
   then exists bm bls bm',
       bias_mu l = Some bm /\ bias_log_sigma l = Some bls /\
       bias_mu l' = Some bm' /\ shape bm' = shape bm /\
       length (data bm') = length (data bm) /\
       bias_log_sigma l' = Some (filled bls (converted (prior_log_sigma l)))
   else bias_mu l' = bias_mu l /\ bias_log_sigma l' = bias_log_sigma l).
Proof.
  intros Hwm Hwls. unfold _BayesConvNd.reset_parameters.
  rewrite Hwm. simpl the_tensor. intros H.
  apply bind_Ok in H. destruct H as (w0 & g0 & H0 & H). apply ret_Ok in H0.
  destruct H0 as [<- <-].
  apply bind_Ok in H. destruct H as (w' & g1 & Hk & H).
  apply kaiming_uniform__Ok in Hk. destruct Hk as [Hs Hl].
  apply bind_Ok in H. destruct H as (ls0 & g2 & H0 & H).
  simpl in H0. rewrite Hwls in H0. apply ret_Ok in H0. destruct H0 as [<- <-].
  apply bind_Ok in H. destruct H as (ls' & g2 & Hfill & H).
  apply fill__Ok in Hfill. cbn in Hfill. destruct Hfill as (c & Hc & -> & ->).
  rewrite <- (converted_eq _ _ Hc) in *.
  simpl in H. destruct (bias l) eqn:Hb.
  - apply bind_Ok in H. destruct H as (w0 & g2 & H0 & H). apply ret_Ok in H0.
    destruct H0 as [<- <-].
    apply bind_Ok in H. destruct H as ([fan_in fan_out] & g3 & _ & H).
    apply bind_Ok in H. destruct H as (bound & g4 & _ & H).
    apply bind_Ok in H. destruct H as (b & g5 & Hb1 & H).
    apply the_tensor_Ok in Hb1. destruct Hb1 as [Hbm ->].
    apply bind_Ok in H. destruct H as (b' & g6 & Hu & H).
    apply uniform__Ok in Hu. destruct Hu as [Hbs Hbl].
    apply bind_Ok in H. destruct H as (bls & g7 & Hb2 & H).
    apply the_tensor_Ok in Hb2. destruct Hb2 as [Hbls ->].
    apply bind_Ok in H. destruct H as (bls' & g8 & Hfill & H).
    apply fill__Ok in Hfill. cbn in Hfill. destruct Hfill as (c' & Hc' & -> & ->).
    rewrite <- (converted_eq _ _ Hc') in *.
    apply ret_Ok in H. destruct H as [<- <-]. simpl.
    repeat (split; [reflexivity|]). split; [exact Hb|].
    split; [exists w'; auto|]. split; [reflexivity|].
    exists b, bls, b'. repeat split; auto.
  - apply ret_Ok in H. destruct H as [<- <-]. simpl.
    repeat (split; [reflexivity|]). split; [exact Hb|].
    split; [exists w'; auto|]. auto.
Qed.

(** A [reset_parameters] that returns has converted [prior_log_sigma]. *)
Lemma reset_parameters_converts (l l' : Layer F) (g g' : G) wm wls :
  weight_mu l = Some wm -> weight_log_sigma l = Some wls ->
  _BayesConvNd.reset_parameters l g = (Ok l', g') ->
  to_dtype (prior_log_sigma l) = inr (converted (prior_log_sigma l)).
Proof.
  intros Hwm Hwls. unfold _BayesConvNd.reset_parameters.
  rewrite Hwm. simpl the_tensor. intros H.
  apply bind_Ok in H. destruct H as (w0 & g0 & _ & H).
  apply bind_Ok in H. destruct H as (w' & g1 & _ & H).
  apply bind_Ok in H. destruct H as (ls0 & g2 & _ & H).
  apply bind_Ok in H. destruct H as (ls' & g3 & Hfill & _).
  apply fill__Ok in Hfill. cbn in Hfill. destruct Hfill as (c & Hc & _).
  now rewrite (converted_eq _ _ Hc).
Qed.
End TensorFacts.

Section InitFacts.
Context {F G : Type} `{T : Torch F G}.

(** A successful construction passed both checks, allocated the
    statistic tensors and ran [reset_parameters] on them. *)
Lemma init_Ok mu ls ic oc ks st pd dl tr op gr b pm (g g' : G) (l : Layer F) :
  _BayesConvNd.__init__ mu ls ic oc ks st pd dl tr op gr b pm g = (Ok l, g') ->
  gr <> 0 /\ ic mod gr = 0 /\ oc mod gr = 0 /\
  _BayesConvNd.reset_parameters
    (mkLayer ic oc ks st pd dl tr op gr pm mu ls b
       (Some (allocated (weight_dims tr ic oc gr ks)))
       (Some (allocated (weight_dims tr ic oc gr ks)))
       (if b then Some (allocated [oc]) else None)
       (if b then Some (allocated [oc]) else None)) g = (Ok l, g').
Proof.
  unfold _BayesConvNd.__init__. intros H.
  apply bind_Ok in H. destruct H as (r1 & g1 & H1 & H).
  apply py_mod_Ok in H1. destruct H1 as (Hgr & -> & ->).
  destruct (ic mod gr =? 0) eqn:E1; simpl in H; [|discriminate].
  apply bind_Ok in H. destruct H as (r2 & g2 & H2 & H).
  apply py_mod_Ok in H2. destruct H2 as (_ & -> & ->).
  destruct (oc mod gr =? 0) eqn:E2; simpl in H; [|discriminate].
  apply Z.eqb_eq in E1, E2. repeat (split; [assumption|]).
  apply bind_Ok in H. destruct H as ([wm wls] & g3 & Hw & H).
  apply bind_Ok in H. destruct H as ([bm bls] & g4 & Hb & H).
  assert (Hw' : wm = allocated (weight_dims tr ic oc gr ks) /\
                wls = allocated (weight_dims tr ic oc gr ks) /\ g3 = g).
  { unfold weight_dims. destruct tr.
    - rewrite (bind_eq_Ok _ _ _ _ _ (py_floordiv_nonzero oc gr g Hgr)) in Hw.
      apply bind_Ok in Hw. destruct Hw as (t1 & g5 & Ht1 & Hw).
      apply torch_Tensor_Ok in Ht1. destruct Ht1 as [-> ->].
      rewrite (bind_eq_Ok _ _ _ _ _ (py_floordiv_nonzero oc gr g Hgr)) in Hw.
      apply bind_Ok in Hw. destruct Hw as (t2 & g6 & Ht2 & Hw).
      apply torch_Tensor_Ok in Ht2. destruct Ht2 as [-> ->].
      apply ret_Ok in Hw. destruct Hw as [Hw <-]. injection Hw as <- <-. auto.
    - rewrite (bind_eq_Ok _ _ _ _ _ (py_floordiv_nonzero ic gr g Hgr)) in Hw.
      apply bind_Ok in Hw. destruct Hw as (t1 & g5 & Ht1 & Hw).
      apply torch_Tensor_Ok in Ht1. destruct Ht1 as [-> ->].
      rewrite (bind_eq_Ok _ _ _ _ _ (py_floordiv_nonzero ic gr g Hgr)) in Hw.
      apply bind_Ok in Hw. destruct Hw as (t2 & g6 & Ht2 & Hw).
      apply torch_Tensor_Ok in Ht2. destruct Ht2 as [-> ->].
      apply ret_Ok in Hw. destruct Hw as [Hw <-]. injection Hw as <- <-. auto. }
  destruct Hw' as (-> & -> & ->).
  destruct b.
  - apply bind_Ok in Hb. destruct Hb as (t1 & g5 & Ht1 & Hb).
    apply torch_Tensor_Ok in Ht1. destruct Ht1 as [-> ->].
    apply bind_Ok in Hb. destruct Hb as (t2 & g6 & Ht2 & Hb).
    apply torch_Tensor_Ok in Ht2. destruct Ht2 as [-> ->].
    apply ret_Ok in Hb. destruct Hb as [Hb <-]. injection Hb as <- <-. exact H.
  - apply ret_Ok in Hb. destruct Hb as [Hb <-]. injection Hb as <- <-. exact H.
Qed.

Lemma allocated_wf dims : wf_tensor (allocated dims).
Proof. unfold wf_tensor, allocated. simpl. apply repeat_length. Qed.

(** The layer a successful construction returns, field by field. *)
Lemma init_fields mu ls ic oc ks st pd dl tr op gr b pm (g g' : G) (l : Layer F) :
  _BayesConvNd.__init__ mu ls ic oc ks st pd dl tr op gr b pm g = (Ok l, g') ->
  gr <> 0 /\ ic mod gr = 0 /\ oc mod gr = 0 /\
  bias l = b /\ prior_log_sigma l = ls /\
  (exists wm, weight_mu l = Some wm /\
              shape wm = weight_dims tr ic oc gr ks /\ wf_tensor wm) /\
  weight_log_sigma l
    = Some (filled (allocated (weight_dims tr ic oc gr ks)) (converted ls)) /\
  (if b
   then (exists bm, bias_mu l = Some bm /\ shape bm = [oc] /\ wf_tensor bm) /\
        bias_log_sigma l = Some (filled (allocated [oc]) (converted ls))
   else bias_mu l = None /\ bias_log_sigma l = None).
Proof.
  intros H. apply init_Ok in H. destruct H as (Hgr & Hic & Hoc & H).
  repeat (split; [assumption|]).
  eapply reset_parameters_Ok in H; [|reflexivity|reflexivity].
  simpl in H.
  destruct H as (_ & _ & _ & _ & _ & _ & _ & _ & _ & _ & _ & Hls & Hb & Hwm & Hwls & Hbias).
  repeat (split; [assumption|]).
  split.
  { destruct Hwm as (wm' & E & Hs & Hl). exists wm'. repeat split; auto.
    unfold wf_tensor. rewrite Hl, Hs. apply allocated_wf. }
  split; [exact Hwls|].
  destruct b.
  - destruct Hbias as (bm & bls & bm' & E1 & E2 & E3 & Hs & Hl & E4).
    injection E1 as <-. injection E2 as <-. split; [|exact E4].
    exists bm'. repeat split; auto.
    unfold wf_tensor. rewrite Hl, Hs. apply allocated_wf.
  - destruct Hbias as [-> ->]. auto.
Qed.
End InitFacts.

Section ForwardFacts.
Context {F G : Type} `{T : Torch F G}.

Lemma noise_like_shape (t : Tensor F) (g : G) :
  shape (fst (noise_like t g)) = shape t.
Proof.
  unfold noise_like. destruct (draw randn _ g) as [xs g']. reflexivity.
Qed.

Lemma noise_like_length (t : Tensor F) (g : G) :
  length (data (fst (noise_like t g))) = Z.to_nat (numel (shape t)).
Proof.
  unfold noise_like.
  pose proof (draw_length randn (Z.to_nat (numel (shape t))) g) as L.
  destruct (draw randn _ g) as [xs g']. exact L.
Qed.

(** Between tensors of one shape the sampling expression does not
    raise and is the element-wise formula. *)
Lemma sample_Ok (mu ls : Tensor F) (g : G) :
  shape mu = shape ls ->
  sample (Some mu) (Some ls) g =
    (Ok (reparam mu ls (fst (noise_like ls g))), snd (noise_like ls g)).
Proof.
  intros Hs. unfold sample, bind, randn_like, noise_like.
  destruct (draw randn _ g) as [xs g1]. simpl.
  unfold tensor_mul, tensor_add, elementwise. simpl.
  rewrite shape_eqb_refl. simpl. rewrite Hs, shape_eqb_refl.
  unfold reparam, ret. simpl. rewrite Hs. reflexivity.
Qed.

Lemma reparam_length (mu ls n : Tensor F) :
  length (data mu) = length (data ls) -> length (data mu) = length (data n) ->
  length (data (reparam mu ls n)) = length (data mu).
Proof.
  intros H1 H2. unfold reparam. simpl.
  rewrite !zip_with_length, length_map. lia.
Qed.

Lemma reparam_nth (mu ls n : Tensor F) (i : nat) (d : F) :
  (i < length (data mu))%nat -> (i < length (data ls))%nat ->
  (i < length (data n))%nat ->
  nth i (data (reparam mu ls n)) d =
    fadd (nth i (data mu) d) (fmul (fexp (nth i (data ls) d)) (nth i (data n) d)).
Proof.
  intros H1 H2 H3. unfold reparam. simpl.
  rewrite (zip_with_nth fadd _ _ i d d d); [|assumption|].
  - rewrite (zip_with_nth fmul _ _ i (fexp d) d d);
      [|now rewrite length_map|assumption].
    now rewrite map_nth.
  - rewrite zip_with_length, length_map. lia.
Qed.

(** The engine call neither reads nor advances the generator. *)
Lemma engine_call_state (l : Layer F) x w b (g g0 : G) :
  BayesConv2d.engine_call l x w b g = (fst (BayesConv2d.engine_call l x w b g0), g).
Proof.
  unfold BayesConv2d.engine_call.
  destruct (String.eqb (padding_mode l) "circular"); [|reflexivity].
  unfold bind, py_index.
  destruct (nth_error (padding l) 1); [|reflexivity].
  destruct (nth_error (padding l) 0); [|reflexivity].
  simpl. unfold from_torch.
  destruct (torch_outcome (pad x _ _)); reflexivity.
Qed.

(** The engine call, written out: what is asked of [F.pad] and of
    [F.conv2d], or the [IndexError] of a padding tuple that is too short. *)
Lemma engine_call_outcome (l : Layer F) x w b (g : G) :
  BayesConv2d.engine_call l x w b g
    = (if (padding_mode l =? "circular")%string
       then match padding l with
            | p0 :: p1 :: _ =>
                match pad x [(p1 + 1) / 2; p1 / 2; (p0 + 1) / 2; p0 / 2] "circular" with
                | inl msg => Err (TorchError msg)
                | inr padded =>
                    torch_outcome
                      (conv2d padded w b (stride l) [0; 0] (dilation l) (groups l))
                end
            | _ => Err IndexError
            end
       else torch_outcome
              (conv2d x w b (stride l) (padding l) (dilation l) (groups l)), g).
Proof.
  unfold BayesConv2d.engine_call.
  destruct (String.eqb (padding_mode l) "circular"); [|reflexivity].
  unfold bind, py_index.
  destruct (padding l) as [|p0 [|p1 rest]]; cbn; try reflexivity.
  unfold from_torch. destruct (pad x _ _); reflexivity.
Qed.

(** On a well-formed layer, [forward] draws its samples and calls the
    engine with them. *)
Lemma forward_eq (l : Layer F) x (g : G) :
  wf_layer l ->
  exists W B g2,
    forward_samples l g = Some (W, B, g2) /\
    BayesConv2d.forward l x g = BayesConv2d.engine_call l x W B g2.
Proof.
  intros [(wm & wls & Hwm & Hwls & Hs & _) Hbias].
  unfold BayesConv2d.forward, forward_samples. rewrite Hwm, Hwls.
  rewrite (bind_eq_Ok _ _ _ _ _ (sample_Ok wm wls g Hs)).
  unfold BayesConv2d.conv2d_forward.
  destruct (noise_like wls g) as [wn g1]. simpl fst. simpl snd.
  destruct (bias l) eqn:Hb.
  - destruct (Hbias eq_refl) as (bm & bls & Hbm & Hbls & Hbs & _).
    rewrite Hbm, Hbls.
    destruct (noise_like bls g1) as [bn g2] eqn:En.
    exists (reparam wm wls wn), (Some (reparam bm bls bn)), g2.
    split; [reflexivity|].
    unfold bind at 1. unfold bind at 1.
    rewrite (sample_Ok bm bls g1 Hbs), En. reflexivity.
  - exists (reparam wm wls wn), None, g1. split; reflexivity.
Qed.
End ForwardFacts.

(** ** The constructor *)

Section Constructor.
Context {F G : Type} `{T : Torch F G}.

(** Every layer the constructor returns is well formed. *)
Lemma init_wf mu ls ic oc ks st pd dl tr op gr b pm (g g' : G) (l : Layer F) :
  _BayesConvNd.__init__ mu ls ic oc ks st pd dl tr op gr b pm g = (Ok l, g') ->
  wf_layer l.
Proof.
  intros H. apply init_fields in H.
  destruct H as (_ & _ & _ & Hb & _ & (wm & Hwm & Hs & Hwf) & Hwls & Hbias).
  split.
  - exists wm, (filled (allocated (weight_dims tr ic oc gr ks)) (converted ls)).
    repeat split; auto. apply fill__wf, allocated_wf.
  - rewrite Hb. intros ->. destruct Hbias as [(bm & Hbm & Hbs & Hbwf) Hbls].
    exists bm, (filled (allocated [oc]) (converted ls)).
    repeat split; auto. apply fill__wf, allocated_wf.
Qed.

(** With [groups = 0] the first check itself raises. *)
Lemma init_groups_zero mu ls ic oc ks st pd dl tr op b pm (g : G) :
  _BayesConvNd.__init__ (F := F) mu ls ic oc ks st pd dl tr op 0 b pm g
    = (Err ZeroDivisionError, g).
Proof. reflexivity. Qed.

Lemma init_in_channels_check mu ls ic oc ks st pd dl tr op gr b pm (g : G) :
  gr <> 0 -> ic mod gr <> 0 ->
  _BayesConvNd.__init__ (F := F) mu ls ic oc ks st pd dl tr op gr b pm g
    = (Err (ValueError "in_channels must be divisible by groups"), g).
Proof.
  intros Hgr Hic. unfold _BayesConvNd.__init__, py_mod.
  apply Z.eqb_neq in Hgr, Hic. rewrite Hgr. unfold bind at 1. unfold ret at 1.
  rewrite Hic. reflexivity.
Qed.

Lemma init_out_channels_check mu ls ic oc ks st pd dl tr op gr b pm (g : G) :
  gr <> 0 -> ic mod gr = 0 -> oc mod gr <> 0 ->
  _BayesConvNd.__init__ (F := F) mu ls ic oc ks st pd dl tr op gr b pm g
    = (Err (ValueError "out_channels must be divisible by groups"), g).
Proof.
  intros Hgr Hic Hoc. unfold _BayesConvNd.__init__, py_mod.
  apply Z.eqb_neq in Hgr, Hoc. rewrite Hgr. unfold bind at 1. unfold ret at 1.
  rewrite Hic. cbn [Z.eqb negb]. unfold bind at 1. unfold ret at 1.
  rewrite Hoc. reflexivity.
Qed.

Lemma uniform__raises (P : exn -> Prop) (t : Tensor F) lo hi :
  raises_only (G := G) P (uniform_ t lo hi).
Proof.
  intros g e. unfold uniform_. destruct (draw _ _ g). discriminate.
Qed.

(** Once both checks have passed, nothing that follows raises one of
    the constructor's two [ValueError]s. *)
Lemma init_divisible_not_invalid mu ls ic oc ks st pd dl tr op gr b pm (g : G) e :
  gr <> 0 -> ic mod gr = 0 -> oc mod gr = 0 ->
  fst (_BayesConvNd.__init__ (F := F) mu ls ic oc ks st pd dl tr op gr b pm g) = Err e ->
  ~ InvalidConfiguration e.
Proof.
  intros Hgr Hic Hoc. unfold _BayesConvNd.__init__, py_mod.
  apply Z.eqb_neq in Hgr. rewrite Hgr. unfold bind at 1. unfold ret at 1.
  rewrite Hic. cbn [Z.eqb negb]. unfold bind at 1. unfold ret at 1.
  rewrite Hoc. cbn [Z.eqb negb].
  revert g e.
  match goal with
  | |- forall g e, fst (?m g) = Err e -> _ =>
      change (raises_only (fun e => ~ InvalidConfiguration e) m)
  end.
  unfold _BayesConvNd.reset_parameters, kaiming_uniform_, the_tensor,
    torch_Tensor, py_floordiv.
  repeat first
    [ apply raises_only_ret
    | apply uniform__raises
    | apply raises_only_raise; intros [X|X]; discriminate X
    | apply raises_only_from_torch; intros msg [X|X]; discriminate X
    | apply raises_only_bind
    | match goal with
      | |- forall _, _ => intro
      | |- raises_only _ (if ?c then _ else _) => destruct c
      | |- raises_only _ (match ?x with _ => _ end) => destruct x
      | |- raises_only _ (let (_, _) := ?x in _) => destruct x
      end ].
Qed.
End Constructor.

(** C2: in every layer the constructor returns, [weight_mu] and
    [weight_log_sigma] have one and the same shape:
    [(out_channels, in_channels / groups, *kernel_size)] when the layer is
    not transposed and [(in_channels, out_channels / groups, *kernel_size)]
    when it is, both divisions being exact. *)
Theorem init_weight_shapes {F G} `{T : Torch F G}
    mu ls ic oc ks st pd dl tr op gr b pm (g g' : G) (l : Layer F) :
  _BayesConvNd.__init__ mu ls ic oc ks st pd dl tr op gr b pm g = (Ok l, g') ->
  exists wm wls,
    weight_mu l = Some wm /\ weight_log_sigma l = Some wls /\
    shape wm = shape wls /\
    shape wm = (if tr then ic :: oc / gr :: ks else oc :: ic / gr :: ks) /\
    gr * (ic / gr) = ic /\ gr * (oc / gr) = oc.
Proof.
  intros H. apply init_fields in H.
  destruct H as (Hgr & Hic & Hoc & _ & _ & (wm & Hwm & Hs & _) & Hwls & _).
  exists wm, (filled (allocated (weight_dims tr ic oc gr ks)) (converted ls)).
  repeat split; try assumption.
  - pose proof (Z.div_mod ic gr Hgr). lia.
  - pose proof (Z.div_mod oc gr Hgr). lia.
Qed.

Lemma init_weight_shapes_witness :
  _BayesConvNd.__init__ (T := Ints.torch) 0 1 4 6 [3; 3] [1; 1] [1; 1] [1; 1]
      true [0; 0] 2 true "zeros" 0
    = (Ok Ints.built_transposed, 114) /\
  exists wm wls,
    weight_mu Ints.built_transposed = Some wm /\
    weight_log_sigma Ints.built_transposed = Some wls /\
    shape wm = shape wls /\
    shape wm = [4; 6 / 2; 3; 3] /\
    2 * (4 / 2) = 4 /\ 2 * (6 / 2) = 6.
Proof.
  assert (E : _BayesConvNd.__init__ (T := Ints.torch) 0 1 4 6 [3; 3] [1; 1]
                [1; 1] [1; 1] true [0; 0] 2 true "zeros" 0
              = (Ok Ints.built_transposed, 114)) by (vm_compute; reflexivity).
  split; [exact E|]. exact (init_weight_shapes _ _ _ _ _ _ _ _ _ _ _ _ _ _ _ _ E).
Defined.

(** C3: after a construction with [bias=False] both bias statistics are
    [None]; after a construction with [bias=True] both are tensors of shape
    [(out_channels,)]. *)
Theorem init_bias_presence {F G} `{T : Torch F G}
    mu ls ic oc ks st pd dl tr op gr b pm (g g' : G) (l : Layer F) :
  _BayesConvNd.__init__ mu ls ic oc ks st pd dl tr op gr b pm g = (Ok l, g') ->
  bias l = b /\
  if b
  then exists bm bls,
      bias_mu l = Some bm /\ bias_log_sigma l = Some bls /\
      shape bm = [oc] /\ shape bls = [oc]
  else bias_mu l = None /\ bias_log_sigma l = None.
Proof.
  intros H. apply init_fields in H.
  destruct H as (_ & _ & _ & Hb & _ & _ & _ & Hbias).
  split; [exact Hb|]. destruct b.
  - destruct Hbias as [(bm & Hbm & Hs & _) Hbls].
    exists bm, (filled (allocated [oc]) (converted ls)). repeat split; assumption.
  - exact Hbias.
Qed.

Lemma init_bias_presence_witness :
  _BayesConvNd.__init__ (T := Ints.torch) 0 1 4 2 [3; 3] [1; 1] [1; 1] [1; 1]
      false [0; 0] 2 false "zeros" 0
    = (Ok (Ints.built 1 false "zeros"), 36) /\
  bias (Ints.built 1 false "zeros") = false /\
  bias_mu (Ints.built 1 false "zeros") = None /\
  bias_log_sigma (Ints.built 1 false "zeros") = None.
Proof.
  assert (E : _BayesConvNd.__init__ (T := Ints.torch) 0 1 4 2 [3; 3] [1; 1]
                [1; 1] [1; 1] false [0; 0] 2 false "zeros" 0
              = (Ok (Ints.built 1 false "zeros"), 36)) by (vm_compute; reflexivity).
  split; [exact E|].
  exact (init_bias_presence _ _ _ _ _ _ _ _ _ _ _ false _ _ _ _ E).
Defined.

(** A construction that returns has converted [prior_log_sigma]. *)
Lemma init_converts {F G} `{T : Torch F G}
    mu ls ic oc ks st pd dl tr op gr b pm (g g' : G) (l : Layer F) :
  _BayesConvNd.__init__ mu ls ic oc ks st pd dl tr op gr b pm g = (Ok l, g') ->
  to_dtype ls = inr (converted ls).
Proof.
  intros H. apply init_Ok in H. destruct H as (_ & _ & _ & H).
  eapply reset_parameters_converts in H; [exact H|reflexivity|reflexivity].
Qed.

(** C5, as the claim states it, fails for a [prior_log_sigma] that the
    element type of the tensors cannot hold: with
    [prior_log_sigma = 16777217] the constructor returns a layer whose
    [weight_log_sigma] holds 16777216, the float32 next to it, in every
    element. *)
Lemma init_log_sigma_rounded :
  _BayesConvNd.__init__ (T := Ints.torch) 0 16777217 4 2 [3; 3] [1; 1] [1; 1]
      [1; 1] false [0; 0] 2 true "zeros" 0
    = (Ok (Ints.built 16777217 true "zeros"), 38) /\
  prior_log_sigma (Ints.built 16777217 true "zeros") = 16777217 /\
  weight_log_sigma (Ints.built 16777217 true "zeros")
    = Some (mkTensor [2; 2; 3; 3] (repeat 16777216 36)) /\
  ~ Forall (fun v => v = 16777217) (repeat 16777216 36).
Proof.
  split; [vm_compute; reflexivity|]. split; [vm_compute; reflexivity|].
  split; [vm_compute; reflexivity|].
  intros H. apply Forall_inv in H. discriminate H.
Qed.

(** C5, amended: in every layer the constructor returns, every element
    of [weight_log_sigma], and of [bias_log_sigma] when the layer has a
    bias, is the value [prior_log_sigma] converts to in the element type of
    the tensors (so [prior_log_sigma] itself exactly when the conversion
    leaves it unchanged); each of the two tensors has as many elements as
    its shape says. *)
Theorem init_log_sigma_filled {F G} `{T : Torch F G}
    mu ls ic oc ks st pd dl tr op gr b pm (g g' : G) (l : Layer F) :
  _BayesConvNd.__init__ mu ls ic oc ks st pd dl tr op gr b pm g = (Ok l, g') ->
  prior_log_sigma l = ls /\
  exists c,
    to_dtype ls = inr c /\
    (exists wls,
        weight_log_sigma l = Some wls /\ wf_tensor wls /\
        Forall (fun v => v = c) (data wls)) /\
    (b = true ->
     exists bls,
        bias_log_sigma l = Some bls /\ wf_tensor bls /\
        Forall (fun v => v = c) (data bls)).
Proof.
  intros H. pose proof (init_converts _ _ _ _ _ _ _ _ _ _ _ _ _ _ _ _ H) as Hc.
  apply init_fields in H.
  destruct H as (_ & _ & _ & _ & Hls & _ & Hwls & Hbias).
  split; [exact Hls|]. exists (converted ls). split; [exact Hc|]. split.
  - eexists. split; [exact Hwls|]. split.
    + apply fill__wf, allocated_wf.
    + apply fill__all.
  - intros ->. destruct Hbias as [_ Hbls].
    eexists. split; [exact Hbls|]. split.
    + apply fill__wf, allocated_wf.
    + apply fill__all.
Qed.

Lemma init_log_sigma_filled_witness :
  _BayesConvNd.__init__ (T := Ints.torch) 0 16777217 4 2 [3; 3] [1; 1] [1; 1]
      [1; 1] false [0; 0] 2 true "zeros" 0
    = (Ok (Ints.built 16777217 true "zeros"), 38) /\
  exists c,
    to_dtype 16777217 = inr c /\
    exists wls,
      weight_log_sigma (Ints.built 16777217 true "zeros") = Some wls /\
      Forall (fun v => v = c) (data wls).
Proof.
  assert (E : _BayesConvNd.__init__ (T := Ints.torch) 0 16777217 4 2 [3; 3]
                [1; 1] [1; 1] [1; 1] false [0; 0] 2 true "zeros" 0
              = (Ok (Ints.built 16777217 true "zeros"), 38))
    by (vm_compute; reflexivity).
  split; [exact E|].
  destruct (init_log_sigma_filled _ _ _ _ _ _ _ _ _ _ _ true _ _ _ _ E)
    as (_ & c & Hc & (wls & Hwls & _ & Hall) & _).
  exists c. split; [exact Hc|]. exists wls. split; [exact Hwls | exact Hall].
Defined.

Lemma uniform__eq {F G} `{T : Torch F G} (t : Tensor F) lo hi (g : G) :
  uniform_ t lo hi g
    = (Ok (mkTensor (shape t) (fst (draw (uniform lo hi) (length (data t)) g))),
       snd (draw (uniform lo hi) (length (data t)) g)).
Proof. unfold uniform_. destruct (draw _ _ g). reflexivity. Qed.

Lemma allocated_length {F G} `{T : Torch F G} dims :
  length (data (allocated dims)) = Z.to_nat (numel dims).
Proof. apply allocated_wf. Qed.

Lemma kaiming_uniform__eq {F G} `{T : Torch F G} (t : Tensor F) kb (g : G) :
  kaiming_bound (shape t) = inr kb ->
  kaiming_uniform_ t g
    = (Ok (mkTensor (shape t) (fst (draw (uniform (fneg kb) kb) (length (data t)) g))),
       snd (draw (uniform (fneg kb) kb) (length (data t)) g)).
Proof.
  intros Hk. unfold kaiming_uniform_. rewrite Hk. unfold from_torch.
  cbn [torch_outcome]. unfold bind. apply uniform__eq.
Qed.

Lemma fill__eq {F G} `{T : Torch F G} (t : Tensor F) v c (g : G) :
  to_dtype v = inr c -> fill_ t v g = (Ok (filled t c), g).
Proof. intros Hc. unfold fill_, from_torch, bind, ret. now rewrite Hc. Qed.

Lemma torch_Tensor_eq {F G} `{T : Torch F G} dims (g : G) :
  forallb (fun d => 0 <=? d) dims = true -> can_allocate dims = inr tt ->
  torch_Tensor dims g = (Ok (allocated dims), g).
Proof.
  intros Hd Ha. unfold torch_Tensor, from_torch, bind, ret. now rewrite Hd, Ha.
Qed.

(** Once both checks have passed and the tensors are allocated, the
    constructor runs [reset_parameters] on them. *)
Lemma init_reaches_reset {F G} `{T : Torch F G}
    (mu ls : F) ic oc ks st pd dl tr op gr b pm (g : G) :
  gr <> 0 -> ic mod gr = 0 -> oc mod gr = 0 ->
  forallb (fun d => 0 <=? d) (weight_dims tr ic oc gr ks) = true ->
  can_allocate (weight_dims tr ic oc gr ks) = inr tt ->
  (b = true -> 0 <= oc /\ can_allocate [oc] = inr tt) ->
  _BayesConvNd.__init__ mu ls ic oc ks st pd dl tr op gr b pm g
    = _BayesConvNd.reset_parameters
        (mkLayer ic oc ks st pd dl tr op gr pm mu ls b
           (Some (allocated (weight_dims tr ic oc gr ks)))
           (Some (allocated (weight_dims tr ic oc gr ks)))
           (if b then Some (allocated [oc]) else None)
           (if b then Some (allocated [oc]) else None)) g.
Proof.
  intros Hgr Hic Hoc Hdims Halloc Hpos.
  unfold _BayesConvNd.__init__, py_mod. apply Z.eqb_neq in Hgr. rewrite Hgr.
  unfold bind at 1. unfold ret at 1. rewrite Hic. cbn [Z.eqb negb].
  unfold bind at 1. unfold ret at 1. rewrite Hoc. cbn [Z.eqb negb].
  unfold bind at 1.
  replace ((if tr
       then
        q <- py_floordiv oc gr;;
        wm <- torch_Tensor (ic :: q :: ks);;
        q0 <- py_floordiv oc gr;;
        wls <- torch_Tensor (ic :: q0 :: ks);; ret (wm, wls)
       else
        q <- py_floordiv ic gr;;
        wm <- torch_Tensor (oc :: q :: ks);;
        q0 <- py_floordiv ic gr;;
        wls <- torch_Tensor (oc :: q0 :: ks);; ret (wm, wls)) g)
    with (Ok (allocated (weight_dims tr ic oc gr ks),
              allocated (weight_dims tr ic oc gr ks)), g).
  2:{ unfold weight_dims in *. unfold py_floordiv. rewrite Hgr.
      destruct tr; unfold bind at 1; unfold ret at 1; unfold bind at 1;
        rewrite (torch_Tensor_eq _ g Hdims Halloc);
        unfold bind at 1; unfold ret at 1; unfold bind at 1;
        rewrite (torch_Tensor_eq _ g Hdims Halloc); reflexivity. }
  unfold bind at 1.
  replace ((if b
        then
         bm <- torch_Tensor [oc];;
         bls <- torch_Tensor [oc];; ret (Some bm, Some bls)
        else ret (None, None)) g)
    with (Ok (if b then Some (allocated [oc]) else None,
              if b then Some (allocated [oc]) else None), g).
  2:{ destruct b; [|reflexivity].
      destruct (Hpos eq_refl) as [Hle Ha].
      assert (Hd : forallb (fun d => 0 <=? d) [oc] = true).
      { cbn [forallb]. apply Z.leb_le in Hle. now rewrite Hle. }
      unfold bind at 1. rewrite (torch_Tensor_eq _ g Hd Ha).
      unfold bind at 1. rewrite (torch_Tensor_eq _ g Hd Ha). reflexivity. }
  reflexivity.
Qed.

(** [reset_parameters] returns on a layer with its statistics in place
    whenever PyTorch's initialisers and the conversion of
    [prior_log_sigma] do not raise and, with a bias, the fan-in is
    positive. *)
Lemma reset_parameters_succeeds {F G} `{T : Torch F G}
    (l : Layer F) (g : G) wm wls kb c :
  weight_mu l = Some wm -> weight_log_sigma l = Some wls ->
  kaiming_bound (shape wm) = inr kb ->
  to_dtype (prior_log_sigma l) = inr c ->
  (bias l = true ->
   (exists fan_in fan_out,
       _calculate_fan_in_and_fan_out (shape wm) = inr (fan_in, fan_out) /\
       0 < fan_in) /\
   (exists bm, bias_mu l = Some bm) /\ (exists bls, bias_log_sigma l = Some bls)) ->
  exists l' g', _BayesConvNd.reset_parameters l g = (Ok l', g').
Proof.
  intros Hwm Hwls Hk Hc Hbias.
  unfold _BayesConvNd.reset_parameters. rewrite Hwm. cbn [the_tensor].
  unfold bind at 1. unfold ret at 1.
  unfold bind at 1. rewrite (kaiming_uniform__eq wm kb g Hk).
  cbn [weight_log_sigma set_weight_mu]. rewrite Hwls. cbn [the_tensor].
  unfold bind at 1. unfold ret at 1.
  cbn [prior_log_sigma]. unfold bind at 1. rewrite (fill__eq wls _ c _ Hc).
  cbn [bias set_weight_log_sigma set_weight_mu weight_mu the_tensor
       prior_log_sigma bias_mu bias_log_sigma].
  destruct (bias l) eqn:Hb; [|unfold ret; eauto].
  destruct (Hbias eq_refl) as ((fi & fo & Hf & Hfi) & (bm & Hbm) & (bls & Hbls)).
  unfold bind at 1. unfold ret at 1. cbn [shape]. rewrite Hf.
  unfold from_torch at 1. cbn [torch_outcome]. unfold bind at 1.
  assert (E1 : (fi <? 0) = false) by (apply Z.ltb_ge; lia).
  assert (E2 : (fi =? 0) = false) by (apply Z.eqb_neq; lia).
  rewrite E1, E2. unfold bind at 1. unfold ret at 1.
  rewrite Hbm. cbn [the_tensor]. unfold bind at 1. unfold ret at 1.
  unfold bind at 1. rewrite uniform__eq.
  cbn [set_bias_mu set_weight_log_sigma set_weight_mu bias_log_sigma
       prior_log_sigma]. rewrite Hbls. cbn [the_tensor].
  unfold bind at 1. unfold ret at 1.
  cbn [prior_log_sigma]. unfold bind at 1. rewrite (fill__eq bls _ c _ Hc).
  unfold ret. eauto.
Qed.

(** The constructor returns a layer whenever both checks pass, the
    tensors can be allocated, PyTorch's initialisers and the conversion of
    [prior_log_sigma] do not raise and, with a bias, the fan-in of the
    weight tensor is positive. *)
Lemma init_succeeds {F G} `{T : Torch F G}
    mu ls ic oc ks st pd dl tr op gr b pm (g : G) bound c :
  gr <> 0 -> ic mod gr = 0 -> oc mod gr = 0 ->
  forallb (fun d => 0 <=? d) (weight_dims tr ic oc gr ks) = true ->
  can_allocate (weight_dims tr ic oc gr ks) = inr tt ->
  (b = true -> 0 <= oc /\ can_allocate [oc] = inr tt) ->
  kaiming_bound (weight_dims tr ic oc gr ks) = inr bound ->
  to_dtype ls = inr c ->
  (b = true -> exists fan_in fan_out,
      _calculate_fan_in_and_fan_out (weight_dims tr ic oc gr ks) = inr (fan_in, fan_out) /\
      0 < fan_in) ->
  exists (l : Layer F) g',
    _BayesConvNd.__init__ mu ls ic oc ks st pd dl tr op gr b pm g = (Ok l, g').
Proof.
  intros Hgr Hic Hoc Hdims Halloc Hpos Hk Hc Hfan.
  rewrite init_reaches_reset by assumption.
  eapply reset_parameters_succeeds with (kb := bound) (c := c);
    try reflexivity; try assumption.
  cbn [bias bias_mu bias_log_sigma]. intros ->.
  split; [exact (Hfan eq_refl)|]. split; eexists; reflexivity.
Qed.

(** C4, as the claim states it, fails at [groups = 0]: 3 is not divisible
    by 0, yet the constructor raises [ZeroDivisionError], not one of its
    two [ValueError]s. *)
Lemma init_invalid_configuration_fails_at_groups_zero :
  ~ ((exists e,
         fst (_BayesConvNd.__init__ (T := Ints.torch) 0 1 3 4 [3; 3] [1; 1]
                [1; 1] [1; 1] false [0; 0] 0 true "zeros" 0) = Err e /\
         InvalidConfiguration e)
     <-> (~ (0 | 3) \/ ~ (0 | 4))).
Proof.
  intros [_ H]. destruct H as (e & He & Hinv).
  - left. intros [z Hz]. lia.
  - rewrite init_groups_zero in He. injection He as <-.
    destruct Hinv as [X|X]; discriminate X.
Qed.

(** C4, amended: when [groups] is not 0, the constructor raises one of
    its two [ValueError]s (and returns no layer) if and only if
    [in_channels] or [out_channels] is not divisible by [groups]; with
    [in_channels = 3] and [groups = 2] it raises the [in_channels] one; and
    when both are divisible (as with [in_channels = 4], [groups = 2] and an
    even [out_channels]) it returns a layer, provided that no size of the
    statistic tensors is negative, that [torch.Tensor] can allocate them,
    that the Kaiming initialiser and the conversion of [prior_log_sigma]
    to the element type do not raise and that, with a bias, the fan-in
    PyTorch computes for the weight tensor is positive. *)
Theorem init_invalid_configuration_iff {F G} `{T : Torch F G}
    (mu ls : F) ic oc ks st pd dl tr op gr b pm (g : G) :
  gr <> 0 ->
  ((exists e,
       fst (_BayesConvNd.__init__ mu ls ic oc ks st pd dl tr op gr b pm g) = Err e /\
       InvalidConfiguration e)
   <-> (~ (gr | ic) \/ ~ (gr | oc))) /\
  (ic = 3 -> gr = 2 ->
   _BayesConvNd.__init__ mu ls ic oc ks st pd dl tr op gr b pm g
     = (Err (ValueError "in_channels must be divisible by groups"), g)) /\
  ((gr | ic) -> (gr | oc) ->
   forallb (fun d => 0 <=? d) (weight_dims tr ic oc gr ks) = true ->
   can_allocate (weight_dims tr ic oc gr ks) = inr tt ->
   (b = true -> 0 <= oc /\ can_allocate [oc] = inr tt) ->
   (exists bound, kaiming_bound (weight_dims tr ic oc gr ks) = inr bound) ->
   (exists c, to_dtype ls = inr c) ->
   (b = true -> exists fan_in fan_out,
       _calculate_fan_in_and_fan_out (weight_dims tr ic oc gr ks)
         = inr (fan_in, fan_out) /\ 0 < fan_in) ->
   exists l g',
     _BayesConvNd.__init__ mu ls ic oc ks st pd dl tr op gr b pm g = (Ok l, g')).
Proof.
  intros Hgr. split; [|split].
  - rewrite <- !(Z.mod_divide _ _ Hgr). split.
    + intros (e & He & Hinv).
      destruct (Z.eq_dec (ic mod gr) 0) as [Hic|Hic]; [|now left].
      destruct (Z.eq_dec (oc mod gr) 0) as [Hoc|Hoc]; [|now right].
      exfalso. exact (init_divisible_not_invalid _ _ _ _ _ _ _ _ _ _ _ _ _ _ _
                        Hgr Hic Hoc He Hinv).
    + intros H.
      destruct (Z.eq_dec (ic mod gr) 0) as [Hic|Hic].
      * destruct H as [H|H]; [contradiction|].
        eexists. rewrite init_out_channels_check by assumption.
        split; [reflexivity|]. right. reflexivity.
      * eexists. rewrite init_in_channels_check by assumption.
        split; [reflexivity|]. left. reflexivity.
  - intros -> ->. apply init_in_channels_check; [lia|]. discriminate.
  - intros Hic Hoc Hdims Halloc Hpos [bound Hk] [c Hc] Hfan.
    apply (Z.mod_divide _ _ Hgr) in Hic, Hoc.
    eapply init_succeeds; eassumption.
Qed.

Lemma init_invalid_configuration_iff_witness :
  2 <> 0 /\
  (exists e,
      fst (_BayesConvNd.__init__ (T := Ints.torch) 0 1 3 4 [3; 3] [1; 1]
             [1; 1] [1; 1] false [0; 0] 2 true "zeros" 0) = Err e /\
      InvalidConfiguration e) /\
  (exists l g',
      _BayesConvNd.__init__ (T := Ints.torch) 0 1 4 2 [3; 3] [1; 1]
        [1; 1] [1; 1] false [0; 0] 2 true "zeros" 0 = (Ok l, g')).
Proof.
  assert (H2 : 2 <> 0) by lia.
  split; [exact H2|]. split.
  - apply (proj1 (init_invalid_configuration_iff (T := Ints.torch)
                    0 1 3 4 [3; 3] [1; 1] [1; 1] [1; 1] false [0; 0] 2 true
                    "zeros" 0 H2)).
    left. intros [z Hz]. lia.
  - apply (proj2 (proj2 (init_invalid_configuration_iff (T := Ints.torch)
                    0 1 4 2 [3; 3] [1; 1] [1; 1] [1; 1] false [0; 0] 2 true
                    "zeros" 0 H2))).
    + exists 2. reflexivity.
    + exists 1. reflexivity.
    + reflexivity.
    + reflexivity.
    + intros _. split; [lia | reflexivity].
    + exists 250. reflexivity.
    + exists 1. reflexivity.
    + intros _. exists 18, 18. split; [reflexivity|lia].
Defined.

(** C10: with [groups = 0] the constructor does not reach its
    ['divisible by groups'] errors: the first check's own modulo raises
    [ZeroDivisionError], for [_BayesConvNd] and for [BayesConv2d], before
    anything is drawn from the generator. *)
Theorem init_groups_zero_division {F G} `{T : Torch F G}
    (mu ls : F) ic oc ks st pd dl tr op b pm (g : G) ks2 st2 pd2 dl2 :
  _BayesConvNd.__init__ mu ls ic oc ks st pd dl tr op 0 b pm g
    = (Err ZeroDivisionError, g) /\
  BayesConv2d.__init__ mu ls ic oc ks2 st2 pd2 dl2 0 b pm g
    = (Err ZeroDivisionError, g) /\
  ~ InvalidConfiguration ZeroDivisionError.
Proof.
  split; [reflexivity|]. split; [reflexivity|].
  intros [X|X]; discriminate X.
Qed.

(** ** The forward pass *)

Section EngineCall.
Context {F G : Type} `{T : Torch F G}.

Lemma engine_call_direct (l : Layer F) x w b (g : G) :
  padding_mode l <> "circular" ->
  BayesConv2d.engine_call l x w b g
    = (torch_outcome (conv2d x w b (stride l) (padding l) (dilation l) (groups l)), g).
Proof.
  intros H. unfold BayesConv2d.engine_call.
  apply String.eqb_neq in H. rewrite H. reflexivity.
Qed.

Lemma engine_call_circular (l : Layer F) x w b (g : G) p0 p1 rest :
  padding_mode l = "circular" -> padding l = p0 :: p1 :: rest ->
  BayesConv2d.engine_call l x w b g
    = (match pad x [(p1 + 1) / 2; p1 / 2; (p0 + 1) / 2; p0 / 2] "circular" with
       | inl msg => Err (TorchError msg)
       | inr padded =>
           torch_outcome (conv2d padded w b (stride l) [0; 0] (dilation l) (groups l))
       end, g).
Proof.
  intros Hm Hp. unfold BayesConv2d.engine_call. rewrite Hm, Hp.
  rewrite String.eqb_refl. unfold py_index, bind, ret, from_torch. simpl.
  destruct (pad x _ _); reflexivity.
Qed.

Lemma draw_Forall {A} (P : A -> Prop) (d : G -> A * G) n (g : G) :
  (forall g0, P (fst (d g0))) -> Forall P (fst (draw d n g)).
Proof.
  intros Hd. revert g. induction n as [|n IH]; intros g; cbn [draw].
  - constructor.
  - specialize (Hd g). destruct (d g) as [x g1]. specialize (IH g1).
    destruct (draw d n g1) as [xs g2]. cbn in *. constructor; assumption.
Qed.

(** With an all-zero [exp(log_sigma)] the sample is the mean, up to the
    equivalence. *)
Lemma zip_with_zero (eqv : F -> F -> Prop) (finite : F -> Prop) (zero : F)
    `{!LimitLaws eqv finite zero} (xs es ns : list F) :
  length es = length xs -> length ns = length xs ->
  Forall (fun v => fexp v = zero) es -> Forall finite ns ->
  Forall2 eqv (zip_with fadd xs (zip_with fmul (map fexp es) ns)) xs.
Proof.
  revert es ns. induction xs as [|x xs IH]; intros [|e es] [|n ns];
    simpl; try discriminate; try constructor.
  - apply Forall_cons_iff in H1. destruct H1 as [Hz _].
    apply Forall_cons_iff in H2. destruct H2 as [Hf _].
    rewrite Hz. now apply mean_plus_zero.
  - apply Forall_cons_iff in H1. apply Forall_cons_iff in H2.
    apply IH; intuition.
Qed.

Lemma reparam_zero (eqv : F -> F -> Prop) (finite : F -> Prop) (zero : F)
    `{!LimitLaws eqv finite zero} (mu ls n : Tensor F) :
  length (data ls) = length (data mu) -> length (data n) = length (data mu) ->
  Forall (fun v => fexp v = zero) (data ls) -> Forall finite (data n) ->
  tensor_eqv eqv (reparam mu ls n) mu.
Proof.
  intros H1 H2 H3 H4. split; [reflexivity|].
  now apply (zip_with_zero eqv finite zero).
Qed.

Lemma noise_like_finite (finite : F -> Prop) (t : Tensor F) (g : G) :
  (forall g0, finite (fst (randn g0))) ->
  Forall finite (data (fst (noise_like t g))).
Proof.
  intros Hr. unfold noise_like.
  pose proof (draw_Forall finite randn (Z.to_nat (numel (shape t))) g Hr) as H.
  destruct (draw randn _ g) as [xs g1]. exact H.
Qed.

Lemma tensor_eqv_sym (eqv : F -> F -> Prop) (a b : Tensor F) :
  (forall x y, eqv x y -> eqv y x) -> tensor_eqv eqv a b -> tensor_eqv eqv b a.
Proof.
  intros Hs [E H]. split; [now symmetry|].
  induction H; constructor; auto.
Qed.

Lemma tensor_eqv_trans (eqv : F -> F -> Prop) (a b c : Tensor F) :
  (forall x y z, eqv x y -> eqv y z -> eqv x z) ->
  tensor_eqv eqv a b -> tensor_eqv eqv b c -> tensor_eqv eqv a c.
Proof.
  intros Ht [E1 H1] [E2 H2]. split; [congruence|].
  revert H2. generalize (data c). induction H1; intros l2 H2; inversion H2; subst;
    constructor; eauto.
Qed.

Lemma outcome_eqv_sym (eqv : F -> F -> Prop) (a b : result (Tensor F)) :
  (forall x y, eqv x y -> eqv y x) -> outcome_eqv eqv a b -> outcome_eqv eqv b a.
Proof.
  intros Hs. destruct a, b; cbn; try tauto; try congruence.
  now apply tensor_eqv_sym.
Qed.

Lemma outcome_eqv_trans (eqv : F -> F -> Prop) (a b c : result (Tensor F)) :
  (forall x y z, eqv x y -> eqv y z -> eqv x z) ->
  outcome_eqv eqv a b -> outcome_eqv eqv b c -> outcome_eqv eqv a c.
Proof.
  intros Ht. destruct a, b, c; cbn; try tauto; try congruence.
  now apply tensor_eqv_trans.
Qed.

(** [reset_parameters] reads neither [prior_mu] nor [padding_mode]. *)
Lemma reset_parameters_prior_mu (l : Layer F) (v : F) (g : G) :
  _BayesConvNd.reset_parameters (set_prior_mu l v) g
    = on_layer (fun l' => set_prior_mu l' v) (_BayesConvNd.reset_parameters l g).
Proof.
  unfold _BayesConvNd.reset_parameters, on_layer, bind.
  destruct l; cbn.
  repeat match goal with
         | |- context [match ?x with _ => _ end] => destruct x; cbn
         end; reflexivity.
Qed.

Lemma reset_parameters_padding_mode (l : Layer F) (m : string) (g : G) :
  _BayesConvNd.reset_parameters (set_padding_mode l m) g
    = on_layer (fun l' => set_padding_mode l' m) (_BayesConvNd.reset_parameters l g).
Proof.
  unfold _BayesConvNd.reset_parameters, on_layer, bind.
  destruct l; cbn.
  repeat match goal with
         | |- context [match ?x with _ => _ end] => destruct x; cbn
         end; reflexivity.
Qed.
End EngineCall.

(** C1: on every forward call of a well-formed layer, the weight handed
    to the engine is [weight_mu + exp(weight_log_sigma) * noise], element
    by element, for a noise tensor of the shape of [weight_mu] drawn first;
    when the layer has a bias, the bias handed to the engine is
    [bias_mu + exp(bias_log_sigma) * noise'] for a noise tensor drawn
    second; when it has none, the engine is called with [None].  The call
    of the engine is written out: [F.conv2d] on the input with the
    configured padding or, in circular mode, on the input padded by
    [F.pad], with padding [(0, 0)]; in circular mode a padding tuple of
    fewer than two entries raises [IndexError] before any call. *)
Theorem forward_reparameterizes {F G} `{T : Torch F G} (l : Layer F) x (g : G) :
  wf_layer l ->
  exists wm wls wn g1 B g2,
    weight_mu l = Some wm /\ weight_log_sigma l = Some wls /\
    noise_like wls g = (wn, g1) /\ shape wn = shape wm /\
    shape (reparam wm wls wn) = shape wm /\
    length (data (reparam wm wls wn)) = Z.to_nat (numel (shape wm)) /\
    (forall i d, (i < Z.to_nat (numel (shape wm)))%nat ->
       nth i (data (reparam wm wls wn)) d
         = fadd (nth i (data wm) d) (fmul (fexp (nth i (data wls) d)) (nth i (data wn) d))) /\
    (if bias l
     then exists bm bls bn,
         bias_mu l = Some bm /\ bias_log_sigma l = Some bls /\
         noise_like bls g1 = (bn, g2) /\ shape bn = shape bm /\
         B = Some (reparam bm bls bn) /\
         length (data (reparam bm bls bn)) = Z.to_nat (numel (shape bm)) /\
         (forall i d, (i < Z.to_nat (numel (shape bm)))%nat ->
            nth i (data (reparam bm bls bn)) d
              = fadd (nth i (data bm) d) (fmul (fexp (nth i (data bls) d)) (nth i (data bn) d)))
     else B = None /\ g2 = g1) /\
    BayesConv2d.forward l x g
      = (if (padding_mode l =? "circular")%string
         then match padding l with
              | p0 :: p1 :: _ =>
                  match pad x [(p1 + 1) / 2; p1 / 2; (p0 + 1) / 2; p0 / 2]
                          "circular" with
                  | inl msg => Err (TorchError msg)
                  | inr padded =>
                      torch_outcome
                        (conv2d padded (reparam wm wls wn) B (stride l) [0; 0]
                           (dilation l) (groups l))
                  end
              | _ => Err IndexError
              end
         else torch_outcome
                (conv2d x (reparam wm wls wn) B (stride l) (padding l)
                   (dilation l) (groups l)), g2).
Proof.
  intros Hwf. destruct (forward_eq l x g Hwf) as (W & B & g2 & Hsam & Hfw).
  rewrite engine_call_outcome in Hfw.
  destruct Hwf as [(wm & wls & Hwm & Hwls & Hs & Hwfm & Hwfls) Hbias].
  unfold forward_samples in Hsam. rewrite Hwm, Hwls in Hsam.
  pose proof (noise_like_shape wls g) as Hns.
  pose proof (noise_like_length wls g) as Hnl.
  destruct (noise_like wls g) as [wn g1] eqn:En. simpl in Hns, Hnl.
  unfold wf_tensor in Hwfm, Hwfls.
  assert (Hlen : forall (m s n : Tensor F),
             shape m = shape s -> wf_tensor m -> wf_tensor s ->
             length (data n) = Z.to_nat (numel (shape s)) ->
             length (data (reparam m s n)) = Z.to_nat (numel (shape m)) /\
             (forall i d, (i < Z.to_nat (numel (shape m)))%nat ->
                nth i (data (reparam m s n)) d
                  = fadd (nth i (data m) d) (fmul (fexp (nth i (data s) d)) (nth i (data n) d)))).
  { intros m s n E Hm Hs' Hn. unfold wf_tensor in Hm, Hs'. split.
    - rewrite reparam_length; congruence.
    - intros i d Hi. apply reparam_nth; rewrite ?Hm, ?Hs', ?Hn, <- ?E; assumption. }
  destruct (Hlen wm wls wn Hs Hwfm Hwfls Hnl) as [HL HN].
  exists wm, wls, wn, g1, B, g2.
  repeat (split; [first [assumption | reflexivity | congruence]|]).
  destruct (bias l) eqn:Hb.
  - destruct (Hbias eq_refl) as (bm & bls & Hbm & Hbls & Hbs & Hwfbm & Hwfbls).
    rewrite Hbm, Hbls in Hsam.
    pose proof (noise_like_shape bls g1) as Hbns.
    pose proof (noise_like_length bls g1) as Hbnl.
    destruct (noise_like bls g1) as [bn g2'] eqn:En'. simpl in Hbns, Hbnl.
    injection Hsam as <- <- <-.
    destruct (Hlen bm bls bn Hbs Hwfbm Hwfbls Hbnl) as [HbL HbN].
    split; [|exact Hfw].
    exists bm, bls, bn. repeat split; auto. congruence.
  - injection Hsam as <- <- <-. split; [split; reflexivity | exact Hfw].
Qed.

(** The layers of the concrete instance are well formed. *)
Lemma built_wf ls b m g' :
  Ints.build ls b m = (Ok (Ints.built ls b m), g') ->
  wf_layer (Ints.built ls b m).
Proof.
  unfold Ints.build, BayesConv2d.__init__. intros E.
  exact (init_wf _ _ _ _ _ _ _ _ _ _ _ _ _ _ _ _ E).
Qed.

Lemma forward_reparameterizes_witness :
  wf_layer (Ints.built 1 true "zeros") /\
  exists W B g2,
    BayesConv2d.forward (Ints.built 1 true "zeros") Ints.ones 38
      = (torch_outcome (conv2d Ints.ones W B [1; 1] [1; 1] [1; 1] 2), g2).
Proof.
  assert (Hwf : wf_layer (Ints.built 1 true "zeros")).
  { apply (built_wf 1 true "zeros" 38). vm_compute. reflexivity. }
  split; [exact Hwf|].
  destruct (forward_reparameterizes (Ints.built 1 true "zeros") Ints.ones 38 Hwf)
    as (wm & wls & wn & g1 & B & g2 & _ & _ & _ & _ & _ & _ & _ & _ & H).
  exists (reparam wm wls wn), B, g2. exact H.
Defined.

(** C6: with [padding_mode = 'circular'] and a padding [(p0, p1)],
    [forward] pads the input circularly by
    [((p1+1)//2, p1//2, (p0+1)//2, p0//2)] (the last dimension first) and
    calls the engine on the padded input with padding [(0, 0)]; with any
    other [padding_mode] it calls the engine on the input itself with the
    configured padding.  Stride, dilation and groups are the configured
    ones in both cases, and weight and bias are the samples of this call. *)
Theorem forward_padding_dispatch {F G} `{T : Torch F G}
    (l : Layer F) x (g : G) W B g2 :
  wf_layer l ->
  forward_samples l g = Some (W, B, g2) ->
  (padding_mode l = "circular" ->
   forall p0 p1 rest, padding l = p0 :: p1 :: rest ->
     BayesConv2d.forward l x g
       = (match pad x [(p1 + 1) / 2; p1 / 2; (p0 + 1) / 2; p0 / 2] "circular" with
          | inl msg => Err (TorchError msg)
          | inr padded =>
              torch_outcome (conv2d padded W B (stride l) [0; 0] (dilation l) (groups l))
          end, g2)) /\
  (padding_mode l <> "circular" ->
     BayesConv2d.forward l x g
       = (torch_outcome (conv2d x W B (stride l) (padding l) (dilation l) (groups l)), g2)).
Proof.
  intros Hwf Hsam.
  destruct (forward_eq l x g Hwf) as (W' & B' & g2' & Hsam' & Hfw).
  rewrite Hsam in Hsam'. injection Hsam' as <- <- <-.
  rewrite Hfw. split.
  - intros Hm p0 p1 rest Hp. now apply engine_call_circular with (rest := rest).
  - intros Hm. now apply engine_call_direct.
Qed.

Lemma forward_padding_dispatch_witness :
  wf_layer (Ints.built 1 true "circular") /\
  forward_samples (Ints.built 1 true "circular") 38
    = Some (mkTensor [2; 2; 3; 3]
              [-174; -171; -168; -165; -162; -159; -156; -153; -150;
               -147; -144; -141; -138; -135; -132; -129; -126; -123;
               -120; -117; -114; -111; -108; -105; -102; -99; -96;
               -93; -90; -87; -84; -81; -78; -75; -72; -69],
            Some (mkTensor [2] [-66; -63]), 76) /\
  BayesConv2d.forward (Ints.built 1 true "circular") Ints.ones 38
    = (Ok (mkTensor [1; 2; 2; 2]
             [-2739; -2739; -2739; -2739; -1764; -1764; -1764; -1764]), 76).
Proof.
  assert (Hwf : wf_layer (Ints.built 1 true "circular")).
  { apply (built_wf 1 true "circular" 38). vm_compute. reflexivity. }
  assert (Hsam : forward_samples (Ints.built 1 true "circular") 38
    = Some (mkTensor [2; 2; 3; 3]
              [-174; -171; -168; -165; -162; -159; -156; -153; -150;
               -147; -144; -141; -138; -135; -132; -129; -126; -123;
               -120; -117; -114; -111; -108; -105; -102; -99; -96;
               -93; -90; -87; -84; -81; -78; -75; -72; -69],
            Some (mkTensor [2] [-66; -63]), 76)) by (vm_compute; reflexivity).
  split; [exact Hwf|]. split; [exact Hsam|].
  rewrite (proj1 (forward_padding_dispatch _ Ints.ones _ _ _ _ Hwf Hsam)
             eq_refl 1 1 [] eq_refl).
  reflexivity.
Defined.

(** The integers of the concrete instance, with equality for the
    equivalence, satisfy the laws of the deterministic limit. *)
Lemma ints_limit_laws :
  LimitLaws (T := Ints.torch) eq (fun _ => True) 0.
Proof.
  split; try congruence.
  - intros m n _. cbn. lia.
  - intros g. exact I.
  - intros x w w' b b' s p d gr [Es Ed] Hb.
    assert (Ew : w = w').
    { destruct w as [sw dw], w' as [sw' dw']. cbn in *. subst sw'.
      f_equal. clear -Ed. induction Ed; congruence. }
    assert (Eb : b = b').
    { destruct b as [[sb db]|], b' as [[sb' db']|]; cbn in Hb; try tauto.
      destruct Hb as [Es' Ed']. cbn in *. subst sb'. do 2 f_equal.
      clear -Ed'. induction Ed'; congruence. }
    subst w' b'. destruct (conv2d x w b s p d gr) as [msg|y]; [reflexivity|].
    split; [reflexivity|]. clear. induction (data y); constructor; auto.
Qed.

(** C7, as the claim states it, fails in circular mode: with every
    log-sigma at -1000, whose [exp] is 0, the forward result of a layer
    with [padding_mode = 'circular'] and padding 1 on a 1x4x3x3 input is
    not the convolution of that input by [weight_mu] and [bias_mu] with the
    configured padding (a 1x2x3x3 tensor): the layer convolves the
    circularly pre-padded input with padding [(0, 0)] and returns a
    1x2x2x2 tensor. *)
Lemma deterministic_limit_fails_in_circular_mode :
  weight_mu (Ints.built (-1000) true "circular")
    = Some (mkTensor [2; 2; 3; 3] (map (fun z => z - 250) (Ints.zrange 36))) /\
  weight_log_sigma (Ints.built (-1000) true "circular")
    = Some (mkTensor [2; 2; 3; 3] (repeat (-1000) 36)) /\
  bias_mu (Ints.built (-1000) true "circular") = Some (mkTensor [2] [-214; -213]) /\
  bias_log_sigma (Ints.built (-1000) true "circular")
    = Some (mkTensor [2] [-1000; -1000]) /\
  fexp (-1000) = 0 /\
  fst (BayesConv2d.forward (Ints.built (-1000) true "circular") Ints.ones 38)
    = Ok (mkTensor [1; 2; 2; 2]
            [-4561; -4561; -4561; -4561; -4236; -4236; -4236; -4236]) /\
  torch_outcome
    (conv2d Ints.ones
       (mkTensor [2; 2; 3; 3] (map (fun z => z - 250) (Ints.zrange 36)))
       (Some (mkTensor [2] [-214; -213])) [1; 1] [1; 1] [1; 1] 2)
    = Ok (mkTensor [1; 2; 3; 3]
            [-2130; -3094; -2138; -3106; -4561; -3118; -2154; -3130; -2162;
             -1985; -2877; -1993; -2889; -4236; -2901; -2009; -2913; -2017]) /\
  fst (BayesConv2d.forward (Ints.built (-1000) true "circular") Ints.ones 38)
    <> torch_outcome
         (conv2d Ints.ones
            (mkTensor [2; 2; 3; 3] (map (fun z => z - 250) (Ints.zrange 36)))
            (Some (mkTensor [2] [-214; -213])) [1; 1] [1; 1] [1; 1] 2).
Proof.
  repeat (split; [vm_compute; reflexivity|]).
  vm_compute. discriminate.
Qed.

(** C7, amended: let the scalar arithmetic satisfy [LimitLaws] for an
    equivalence [eqv].  If [exp] of every element of [weight_log_sigma]
    (and of [bias_log_sigma], when the layer has a bias) is zero, then the
    result of [forward] is, up to [eqv], the same in every state of the
    generator, and is the result of the engine on [weight_mu] and [bias_mu]
    themselves ([None] without a bias): [F.conv2d] on the input with the
    configured stride, padding, dilation and groups when [padding_mode] is
    not ['circular'], and in circular mode [F.conv2d] with padding [(0, 0)]
    on the input pre-padded by [F.pad] (or the [IndexError] of a padding
    tuple with fewer than two entries). *)
Theorem forward_deterministic_limit {F G} `{T : Torch F G}
    (eqv : F -> F -> Prop) (finite : F -> Prop) (zero : F)
    (laws : LimitLaws eqv finite zero) (l : Layer F) x wm wls :
  wf_layer l ->
  weight_mu l = Some wm -> weight_log_sigma l = Some wls ->
  Forall (fun v => fexp v = zero) (data wls) ->
  (bias l = true ->
   forall bls, bias_log_sigma l = Some bls ->
               Forall (fun v => fexp v = zero) (data bls)) ->
  forall g : G,
    outcome_eqv eqv (fst (BayesConv2d.forward l x g))
      (if (padding_mode l =? "circular")%string
       then match padding l with
            | p0 :: p1 :: _ =>
                match pad x [(p1 + 1) / 2; p1 / 2; (p0 + 1) / 2; p0 / 2]
                        "circular" with
                | inl msg => Err (TorchError msg)
                | inr padded =>
                    torch_outcome
                      (conv2d padded wm (bias_mean l) (stride l) [0; 0]
                         (dilation l) (groups l))
                end
            | _ => Err IndexError
            end
       else torch_outcome
              (conv2d x wm (bias_mean l) (stride l) (padding l) (dilation l)
                 (groups l))) /\
    forall g',
      outcome_eqv eqv (fst (BayesConv2d.forward l x g))
        (fst (BayesConv2d.forward l x g')).
Proof.
  intros Hwf Hwm Hwls Hzw Hzb.
  set (plain :=
         if (padding_mode l =? "circular")%string
         then match padding l with
              | p0 :: p1 :: _ =>
                  match pad x [(p1 + 1) / 2; p1 / 2; (p0 + 1) / 2; p0 / 2]
                          "circular" with
                  | inl msg => Err (TorchError msg)
                  | inr padded =>
                      torch_outcome
                        (conv2d padded wm (bias_mean l) (stride l) [0; 0]
                           (dilation l) (groups l))
                  end
              | _ => Err IndexError
              end
         else torch_outcome
                (conv2d x wm (bias_mean l) (stride l) (padding l) (dilation l)
                   (groups l))).
  assert (Hdet : forall g : G, outcome_eqv eqv (fst (BayesConv2d.forward l x g)) plain).
  { intros g.
    destruct (forward_eq l x g Hwf) as (W & B & g2 & Hsam & Hfw).
    rewrite Hfw, engine_call_outcome. cbn [fst].
    destruct Hwf as [(wm' & wls' & Hwm' & Hwls' & Hs & Hwfm & Hwfls) Hbias].
    rewrite Hwm in Hwm'. rewrite Hwls in Hwls'.
    injection Hwm' as <-. injection Hwls' as <-.
    unfold forward_samples in Hsam. rewrite Hwm, Hwls in Hsam.
    pose proof (noise_like_length wls g) as Hnl.
    pose proof (noise_like_finite finite wls g randn_finite) as Hnf.
    destruct (noise_like wls g) as [wn g1]. cbn [fst] in Hnl, Hnf.
    unfold wf_tensor in Hwfm, Hwfls.
    assert (EW : tensor_eqv eqv (reparam wm wls wn) wm).
    { apply (reparam_zero eqv finite zero); congruence. }
    assert (EB : option_eqv eqv B (bias_mean l) /\ W = reparam wm wls wn).
    { unfold bias_mean. destruct (bias l) eqn:Hb.
      - destruct (Hbias eq_refl) as (bm & bls & Hbm & Hbls & Hbs & Hwfbm & Hwfbls).
        rewrite Hbm, Hbls in Hsam.
        pose proof (noise_like_length bls g1) as Hbnl.
        pose proof (noise_like_finite finite bls g1 randn_finite) as Hbnf.
        destruct (noise_like bls g1) as [bn g2']. cbn [fst] in Hbnl, Hbnf.
        unfold wf_tensor in Hwfbm, Hwfbls.
        injection Hsam as <- <- <-. split; [|reflexivity]. rewrite Hbm. cbn.
        apply (reparam_zero eqv finite zero); try congruence. now apply Hzb.
      - injection Hsam as <- <- <-. split; [exact I | reflexivity]. }
    destruct EB as [EB ->]. unfold plain.
    destruct (String.eqb (padding_mode l) "circular").
    - destruct (padding l) as [|p0 [|p1 rest]]; cbn; try reflexivity.
      destruct (pad x _ _) as [msg|padded]; cbn; [reflexivity|].
      pose proof (conv2d_respects padded _ _ _ _ (stride l) [0; 0] (dilation l)
                    (groups l) EW EB) as Hc.
      destruct (conv2d padded (reparam wm wls wn) B _ _ _ _),
               (conv2d padded wm (bias_mean l) _ _ _ _); cbn; try tauto.
      now subst.
    - pose proof (conv2d_respects x _ _ _ _ (stride l) (padding l) (dilation l)
                    (groups l) EW EB) as Hc.
      destruct (conv2d x (reparam wm wls wn) B _ _ _ _),
               (conv2d x wm (bias_mean l) _ _ _ _); cbn; try tauto.
      now subst. }
  intros g. split; [apply Hdet|].
  intros g'. eapply outcome_eqv_trans; [exact eqv_trans | apply Hdet |].
  apply outcome_eqv_sym; [exact eqv_sym | apply Hdet].
Qed.

Lemma forward_deterministic_limit_witness :
  wf_layer (Ints.built (-1000) true "circular") /\
  (forall g,
      outcome_eqv eq
        (fst (BayesConv2d.forward (Ints.built (-1000) true "circular") Ints.ones g))
        (Ok (mkTensor [1; 2; 2; 2]
               [-4561; -4561; -4561; -4561; -4236; -4236; -4236; -4236]))).
Proof.
  assert (Hwf : wf_layer (Ints.built (-1000) true "circular")).
  { apply (built_wf (-1000) true "circular" 38). vm_compute. reflexivity. }
  split; [exact Hwf|]. intros g.
  refine (proj1
    (forward_deterministic_limit eq (fun _ => True) 0 ints_limit_laws
       (Ints.built (-1000) true "circular") Ints.ones
       (mkTensor [2; 2; 3; 3] (map (fun z => z - 250) (Ints.zrange 36)))
       (mkTensor [2; 2; 3; 3] (repeat (-1000) 36))
       Hwf eq_refl eq_refl _ _ g)).
  - vm_compute. repeat constructor.
  - intros _ bls E. vm_compute in E. injection E as <-. repeat constructor.
Defined.

Section OnLayer.
Context {F G : Type} `{T : Torch F G}.

Lemma bind_ext {A B} (m : M G A) (k1 k2 : A -> M G B) (g : G) :
  (forall a g', k1 a g' = k2 a g') -> bind m k1 g = bind m k2 g.
Proof.
  intros H. unfold bind. destruct (m g) as [[a|e] g1]; [apply H|reflexivity].
Qed.

Lemma on_layer_bind {A} (f : Layer F -> Layer F) (m : M G A)
    (k : A -> M G (Layer F)) (g : G) :
  on_layer f (bind m k g) = bind m (fun a g' => on_layer f (k a g')) g.
Proof.
  unfold bind. destruct (m g) as [[a|e] g1]; reflexivity.
Qed.

(** The constructor stores [padding_mode] and never reads it. *)
Lemma init_padding_mode mu ls ic oc ks st pd dl tr op gr b pm (g : G) :
  _BayesConvNd.__init__ (F := F) mu ls ic oc ks st pd dl tr op gr b pm g
    = on_layer (fun l => set_padding_mode l pm)
        (_BayesConvNd.__init__ mu ls ic oc ks st pd dl tr op gr b "zeros" g).
Proof.
  unfold _BayesConvNd.__init__.
  rewrite on_layer_bind. apply bind_ext. intros r1 g1.
  destruct (negb (r1 =? 0)); [reflexivity|].
  rewrite on_layer_bind. apply bind_ext. intros r2 g2.
  destruct (negb (r2 =? 0)); [reflexivity|].
  rewrite on_layer_bind. apply bind_ext. intros [wm wls] g3.
  rewrite on_layer_bind. apply bind_ext. intros [bm bls] g4.
  exact (reset_parameters_padding_mode
           (mkLayer ic oc ks st pd dl tr op gr "zeros" mu ls b
              (Some wm) (Some wls) bm bls) pm g4).
Qed.

(** The constructor stores [prior_mu] and never reads it. *)
Lemma init_prior_mu mu mu' ls ic oc ks st pd dl tr op gr b pm (g : G) :
  _BayesConvNd.__init__ (F := F) mu' ls ic oc ks st pd dl tr op gr b pm g
    = on_layer (fun l => set_prior_mu l mu')
        (_BayesConvNd.__init__ mu ls ic oc ks st pd dl tr op gr b pm g).
Proof.
  unfold _BayesConvNd.__init__.
  rewrite on_layer_bind. apply bind_ext. intros r1 g1.
  destruct (negb (r1 =? 0)); [reflexivity|].
  rewrite on_layer_bind. apply bind_ext. intros r2 g2.
  destruct (negb (r2 =? 0)); [reflexivity|].
  rewrite on_layer_bind. apply bind_ext. intros [wm wls] g3.
  rewrite on_layer_bind. apply bind_ext. intros [bm bls] g4.
  exact (reset_parameters_prior_mu
           (mkLayer ic oc ks st pd dl tr op gr pm mu ls b
              (Some wm) (Some wls) bm bls) mu' g4).
Qed.

(** [forward] reads neither [prior_mu] nor, beyond the test against
    ['circular'], [padding_mode]. *)
Lemma forward_prior_mu (l : Layer F) (v : F) x (g : G) :
  BayesConv2d.forward (set_prior_mu l v) x g = BayesConv2d.forward l x g.
Proof. reflexivity. Qed.

Lemma forward_padding_mode (l : Layer F) x (g : G) :
  padding_mode l <> "circular" ->
  BayesConv2d.forward l x g = BayesConv2d.forward (set_padding_mode l "zeros") x g.
Proof.
  intros H. unfold BayesConv2d.forward. apply bind_ext. intros w g1.
  unfold BayesConv2d.conv2d_forward. apply bind_ext. intros b g2.
  unfold BayesConv2d.engine_call. apply String.eqb_neq in H. rewrite H.
  reflexivity.
Qed.
End OnLayer.

(** C8, as the claim states it, fails: the layer
    [BayesConv2d(0, 1, 4, 2, 3, padding=1, groups=2, padding_mode='reflect')]
    is constructed without error, and its first forward call, on a
    1x4x3x3 input (four channels, as the layer expects), raises nothing: it
    returns the 1x2x3x3 tensor of the zero-padded convolution, the one the
    same layer with [padding_mode='zeros'] returns. *)
Lemma unsupported_padding_mode_not_detected :
  Ints.build 1 true "reflect" = (Ok (Ints.built 1 true "reflect"), 38) /\
  padding_mode (Ints.built 1 true "reflect") = "reflect" /\
  BayesConv2d.forward (Ints.built 1 true "reflect") Ints.ones 38
    = (Ok (mkTensor [1; 2; 3; 3]
             [-1206; -1794; -1230; -1830; -2739; -1866; -1278; -1902; -1302;
              -771; -1143; -795; -1179; -1764; -1215; -843; -1251; -867]), 76) /\
  BayesConv2d.forward (Ints.built 1 true "zeros") Ints.ones 38
    = BayesConv2d.forward (Ints.built 1 true "reflect") Ints.ones 38 /\
  ~ (exists e,
        fst (BayesConv2d.forward (Ints.built 1 true "reflect") Ints.ones 38) = Err e).
Proof.
  split; [vm_compute; reflexivity|]. split; [vm_compute; reflexivity|].
  split; [vm_compute; reflexivity|]. split; [vm_compute; reflexivity|].
  intros [e He]. vm_compute in He. discriminate He.
Qed.

(** C8, amended: the constructor never looks at [padding_mode], so a
    construction with a mode other than ['zeros'] and ['circular'] has the
    outcome of the same construction with ['zeros'], the stored mode apart;
    and [forward] never rejects the mode either: for every mode other than
    ['circular'] it behaves as for ['zeros'], calling the engine on the
    input itself with the configured padding, so that the only exceptions
    of such a call are the engine's own. *)
Theorem unsupported_padding_mode_falls_through {F G} `{T : Torch F G}
    (mu ls : F) ic oc ks st pd dl tr op gr b pm (g : G) :
  pm <> "circular" ->
  _BayesConvNd.__init__ mu ls ic oc ks st pd dl tr op gr b pm g
    = on_layer (fun l => set_padding_mode l pm)
        (_BayesConvNd.__init__ mu ls ic oc ks st pd dl tr op gr b "zeros" g) /\
  (forall l g',
      _BayesConvNd.__init__ mu ls ic oc ks st pd dl tr op gr b pm g = (Ok l, g') ->
      padding_mode l = pm /\
      forall x g1,
        BayesConv2d.forward l x g1
          = BayesConv2d.forward (set_padding_mode l "zeros") x g1 /\
        exists W B g2,
          forward_samples l g1 = Some (W, B, g2) /\
          BayesConv2d.forward l x g1
            = (torch_outcome (conv2d x W B (stride l) (padding l) (dilation l)
                                (groups l)), g2)).
Proof.
  intros Hpm. split; [apply init_padding_mode|].
  intros l g' E.
  assert (Hmode : padding_mode l = pm).
  { pose proof E as E'. apply init_Ok in E'. destruct E' as (_ & _ & _ & E').
    eapply reset_parameters_Ok in E'; [|reflexivity|reflexivity].
    simpl in E'. apply E'. }
  split; [exact Hmode|]. intros x g1.
  assert (Hne : padding_mode l <> "circular") by congruence.
  split; [now apply forward_padding_mode|].
  destruct (forward_eq l x g1 (init_wf _ _ _ _ _ _ _ _ _ _ _ _ _ _ _ _ E))
    as (W & B & g2 & Hsam & Hfw).
  exists W, B, g2. split; [exact Hsam|].
  rewrite Hfw. now apply engine_call_direct.
Qed.

Lemma unsupported_padding_mode_falls_through_witness :
  "reflect" <> "circular" /\
  BayesConv2d.forward (Ints.built 1 true "reflect") Ints.ones 38
    = BayesConv2d.forward (set_padding_mode (Ints.built 1 true "reflect") "zeros")
        Ints.ones 38.
Proof.
  assert (Hne : "reflect" <> "circular") by discriminate.
  split; [exact Hne|].
  assert (E : _BayesConvNd.__init__ (T := Ints.torch) 0 1 4 2 [3; 3] [1; 1]
                [1; 1] [1; 1] false [0; 0] 2 true "reflect" 0
              = (Ok (Ints.built 1 true "reflect"), 38)) by (vm_compute; reflexivity).
  exact (proj1 (proj2 (proj2 (unsupported_padding_mode_falls_through
                                0 1 4 2 [3; 3] [1; 1] [1; 1] [1; 1] false [0; 0]
                                2 true "reflect" 0 Hne) _ _ E) Ints.ones 38)).
Defined.

(** C9: two constructions that differ only in [prior_mu], started in the
    same generator state, either both raise the same exception or both
    return a layer; the two layers have the same four statistic tensors,
    leave the generator in the same state, and give the same [forward]
    result on every input in every generator state. *)
Theorem prior_mu_noninterference {F G} `{T : Torch F G}
    (mu1 mu2 ls : F) ic oc ks st pd dl tr op gr b pm (g : G) :
  match _BayesConvNd.__init__ mu1 ls ic oc ks st pd dl tr op gr b pm g,
        _BayesConvNd.__init__ mu2 ls ic oc ks st pd dl tr op gr b pm g with
  | (Ok l1, g1), (Ok l2, g2) =>
      g1 = g2 /\
      weight_mu l1 = weight_mu l2 /\ weight_log_sigma l1 = weight_log_sigma l2 /\
      bias_mu l1 = bias_mu l2 /\ bias_log_sigma l1 = bias_log_sigma l2 /\
      prior_mu l1 = mu1 /\ prior_mu l2 = mu2 /\
      forall x g', BayesConv2d.forward l1 x g' = BayesConv2d.forward l2 x g'
  | (Err e1, g1), (Err e2, g2) => e1 = e2 /\ g1 = g2
  | _, _ => False
  end.
Proof.
  rewrite (init_prior_mu mu1 mu2).
  destruct (_BayesConvNd.__init__ mu1 ls ic oc ks st pd dl tr op gr b pm g)
    as [[l1|e1] g1] eqn:E; simpl; [|split; reflexivity].
  repeat (split; [reflexivity|]).
  split; [|split; [reflexivity|]].
  - apply init_Ok in E. destruct E as (_ & _ & _ & E).
    eapply reset_parameters_Ok in E; [|reflexivity|reflexivity].
    simpl in E. apply E.
  - intros x g'. symmetry. apply forward_prior_mu.
Qed.

(** ** Further properties of the constructor *)

(** What [reset_parameters] computes, step by step, on a layer whose
    four statistics are the given tensors. *)
Lemma reset_parameters_steps {F G} `{T : Torch F G}
    (l l' : Layer F) (g g' : G) wm wls :
  weight_mu l = Some wm -> weight_log_sigma l = Some wls ->
  _BayesConvNd.reset_parameters l g = (Ok l', g') ->
  exists kb,
    kaiming_bound (shape wm) = inr kb /\
    let ws := draw (uniform (fneg kb) kb) (length (data wm)) g in
    weight_mu l' = Some (mkTensor (shape wm) (fst ws)) /\
    if bias l
    then exists fan_in fan_out bm,
        _calculate_fan_in_and_fan_out (shape wm) = inr (fan_in, fan_out) /\
        0 < fan_in /\ bias_mu l = Some bm /\
        let bs := draw (uniform (fneg (inv_sqrt fan_in)) (inv_sqrt fan_in))
                    (length (data bm)) (snd ws) in
        bias_mu l' = Some (mkTensor (shape bm) (fst bs)) /\ g' = snd bs
    else g' = snd ws.
Proof.
  intros Hwm Hwls. unfold _BayesConvNd.reset_parameters.
  rewrite Hwm. cbn [the_tensor]. intros H.
  apply bind_Ok in H. destruct H as (w0 & g0 & H0 & H). apply ret_Ok in H0.
  destruct H0 as [<- <-].
  apply bind_Ok in H. destruct H as (w' & g1 & Hk & H).
  unfold kaiming_uniform_ in Hk. apply bind_Ok in Hk.
  destruct Hk as (kb & g0 & Hkb & Hu).
  unfold from_torch in Hkb. destruct (kaiming_bound (shape wm)) as [msg|kb'] eqn:Ekb;
    [discriminate Hkb|]. injection Hkb as -> ->.
  rewrite uniform__eq in Hu. injection Hu as <- <-.
  exists kb. split; [reflexivity|]. cbn zeta.
  apply bind_Ok in H. destruct H as (ls0 & g2 & H0 & H).
  cbn in H0. rewrite Hwls in H0. apply ret_Ok in H0. destruct H0 as [<- <-].
  apply bind_Ok in H. destruct H as (ls' & g2 & Hfill & H).
  apply fill__Ok in Hfill. destruct Hfill as (c & _ & -> & ->).
  cbn [set_weight_mu set_weight_log_sigma bias weight_mu prior_log_sigma
       bias_mu bias_log_sigma] in H.
  destruct (bias l) eqn:Hb.
  - apply bind_Ok in H. destruct H as (w0 & g2 & H0 & H). apply ret_Ok in H0.
    destruct H0 as [<- <-]. cbn [shape] in H.
    apply bind_Ok in H. destruct H as ([fi fo] & g3 & Hf & H).
    unfold from_torch in Hf.
    destruct (_calculate_fan_in_and_fan_out (shape wm)) as [msg|[fi' fo']] eqn:Ef;
      [discriminate Hf|]. injection Hf as -> -> ->.
    apply bind_Ok in H. destruct H as (bound & g4 & Hbd & H).
    destruct (fi <? 0) eqn:E1; [discriminate Hbd|].
    destruct (fi =? 0) eqn:E2; [discriminate Hbd|].
    apply ret_Ok in Hbd. destruct Hbd as [<- <-].
    apply Z.ltb_ge in E1. apply Z.eqb_neq in E2.
    apply bind_Ok in H. destruct H as (b0 & g5 & Hb1 & H).
    apply the_tensor_Ok in Hb1. cbn in Hb1. destruct Hb1 as [Hbm ->].
    apply bind_Ok in H. destruct H as (b' & g6 & Hu & H).
    rewrite uniform__eq in Hu. injection Hu as <- <-.
    apply bind_Ok in H. destruct H as (bls & g7 & Hb2 & H).
    apply the_tensor_Ok in Hb2. destruct Hb2 as [_ ->].
    apply bind_Ok in H. destruct H as (bls' & g8 & Hfill & H).
    apply fill__Ok in Hfill. destruct Hfill as (c' & _ & -> & ->).
    apply ret_Ok in H. destruct H as [<- <-]. cbn.
    split; [reflexivity|].
    exists fi, fo, b0. repeat split; auto. lia.
  - apply ret_Ok in H. destruct H as [<- <-]. cbn. split; reflexivity.
Qed.

(** X1: the values a successful construction leaves in the two mean
    tensors.  [weight_mu] holds the first [numel] draws of
    [uniform_(-kb, kb)], [kb] being the Kaiming bound of the weight shape;
    with a bias, [bias_mu] holds the next [out_channels] draws of
    [uniform_(-1/sqrt(fan_in), 1/sqrt(fan_in))], [fan_in] being the fan-in
    of the weight tensor (not of the bias tensor), which is positive; the
    generator is left where those draws end. *)
Theorem init_initial_values {F G} `{T : Torch F G}
    mu ls ic oc ks st pd dl tr op gr b pm (g g' : G) (l : Layer F) :
  _BayesConvNd.__init__ mu ls ic oc ks st pd dl tr op gr b pm g = (Ok l, g') ->
  exists kb,
    kaiming_bound (weight_dims tr ic oc gr ks) = inr kb /\
    let ws := draw (uniform (fneg kb) kb)
                (Z.to_nat (numel (weight_dims tr ic oc gr ks))) g in
    weight_mu l = Some (mkTensor (weight_dims tr ic oc gr ks) (fst ws)) /\
    if b
    then exists fan_in fan_out,
        _calculate_fan_in_and_fan_out (weight_dims tr ic oc gr ks)
          = inr (fan_in, fan_out) /\
        0 < fan_in /\
        let bs := draw (uniform (fneg (inv_sqrt fan_in)) (inv_sqrt fan_in))
                    (Z.to_nat oc) (snd ws) in
        bias_mu l = Some (mkTensor [oc] (fst bs)) /\ g' = snd bs
    else g' = snd ws.
Proof.
  intros H. apply init_Ok in H. destruct H as (_ & _ & _ & H).
  eapply reset_parameters_steps in H; [|reflexivity|reflexivity].
  cbn [bias bias_mu] in H. rewrite allocated_length in H.
  destruct H as (kb & Hkb & Hwm & Hrest). exists kb.
  split; [exact Hkb|]. split; [exact Hwm|].
  destruct b; [|exact Hrest].
  destruct Hrest as (fi & fo & bm & Hf & Hfi & Hbm & Hbmu & Hg).
  injection Hbm as <-. rewrite allocated_length in Hbmu, Hg.
  replace (numel [oc]) with oc in Hbmu, Hg by (cbn; lia).
  exists fi, fo. auto.
Qed.

Lemma init_initial_values_witness :
  _BayesConvNd.__init__ (T := Ints.torch) 0 1 4 2 [3; 3] [1; 1] [1; 1] [1; 1]
      false [0; 0] 2 true "zeros" 0
    = (Ok (Ints.built 1 true "zeros"), 38) /\
  exists kb, kaiming_bound [2; 2; 3; 3] = inr kb.
Proof.
  assert (E : _BayesConvNd.__init__ (T := Ints.torch) 0 1 4 2 [3; 3] [1; 1]
                [1; 1] [1; 1] false [0; 0] 2 true "zeros" 0
              = (Ok (Ints.built 1 true "zeros"), 38)) by (vm_compute; reflexivity).
  split; [exact E|].
  destruct (init_initial_values _ _ _ _ _ _ _ _ _ _ _ _ _ _ _ _ E) as (kb & Hkb & _).
  exists kb. exact Hkb.
Defined.

(** X2: what [BayesConv2d(...)] stores.  A successful construction keeps
    the arguments, with [kernel_size], [stride], [padding] and [dilation]
    normalised by [_pair]; the layer is never transposed and its
    [output_padding] is [(0, 0)]; both weight tensors have the shape
    [(out_channels, in_channels // groups) + _pair(kernel_size)] and that
    many elements.  A tuple [kernel_size] is taken as it is, whatever its
    length. *)
Theorem conv2d_init_attributes {F G} `{T : Torch F G}
    (mu ls : F) ic oc ks st pd dl gr b pm (g g' : G) (l : Layer F) :
  BayesConv2d.__init__ mu ls ic oc ks st pd dl gr b pm g = (Ok l, g') ->
  in_channels l = ic /\ out_channels l = oc /\
  kernel_size l = _pair ks /\ stride l = _pair st /\
  padding l = _pair pd /\ dilation l = _pair dl /\
  transposed l = false /\ output_padding l = [0; 0] /\
  groups l = gr /\ padding_mode l = pm /\
  prior_mu l = mu /\ prior_log_sigma l = ls /\ bias l = b /\
  exists wm wls,
    weight_mu l = Some wm /\ weight_log_sigma l = Some wls /\
    shape wm = oc :: ic / gr :: _pair ks /\
    shape wls = oc :: ic / gr :: _pair ks /\
    length (data wm) = Z.to_nat (oc * (ic / gr * numel (_pair ks))) /\
    length (data wls) = Z.to_nat (oc * (ic / gr * numel (_pair ks))).
Proof.
  unfold BayesConv2d.__init__. intros E.
  pose proof (init_fields _ _ _ _ _ _ _ _ _ _ _ _ _ _ _ _ E) as Hf.
  apply init_Ok in E. destruct E as (_ & _ & _ & E).
  eapply reset_parameters_Ok in E; [|reflexivity|reflexivity].
  cbn in E.
  destruct E as (E1 & E2 & E3 & E4 & E5 & E6 & E7 & E8 & E9 & E10 & E11 & E12 & E13 & _).
  repeat (split; [assumption|]).
  destruct Hf as (_ & _ & _ & _ & _ & (wm & Hwm & Hs & Hwf) & Hwls & _).
  exists wm, (filled (allocated (weight_dims false ic oc gr (_pair ks))) (converted ls)).
  unfold weight_dims in *. repeat split; try assumption.
  - unfold wf_tensor in Hwf. rewrite Hwf, Hs. reflexivity.
  - cbn [filled data]. rewrite length_map. apply allocated_length.
Qed.

Lemma conv2d_init_attributes_witness :
  BayesConv2d.__init__ (T := Ints.torch) 0 1 4 2 (Tuple [3; 3; 3]) (Int 1)
      (Int 1) (Int 1) 2 false "zeros" 0
    = (Ok (Ints.built_3d), 108) /\
  exists wm, weight_mu Ints.built_3d = Some wm /\ shape wm = [2; 2; 3; 3; 3].
Proof.
  assert (E : BayesConv2d.__init__ (T := Ints.torch) 0 1 4 2 (Tuple [3; 3; 3])
                (Int 1) (Int 1) (Int 1) 2 false "zeros" 0
              = (Ok (Ints.built_3d), 108)) by (vm_compute; reflexivity).
  split; [exact E|].
  destruct (conv2d_init_attributes _ _ _ _ _ _ _ _ _ _ _ _ _ _ E)
    as (_ & _ & _ & _ & _ & _ & _ & _ & _ & _ & _ & _ & _ & wm & wls & Hwm & _ & Hs & _).
  exists wm. split; [exact Hwm | exact Hs].
Defined.

(** X3: a weight tensor of fan-in 0 (as with [in_channels = 0], which
    passes both checks).  When the tensors are allocated and neither the
    Kaiming initialiser nor the conversion of [prior_log_sigma] raises, a
    construction with [bias=True] raises [ZeroDivisionError] at
    [1 / math.sqrt(fan_in)], while the same construction with [bias=False]
    returns a layer. *)
Theorem init_zero_fan_in {F G} `{T : Torch F G}
    (mu ls : F) ic oc ks st pd dl tr op gr pm (g : G) kb c fan_out :
  gr <> 0 -> ic mod gr = 0 -> oc mod gr = 0 ->
  forallb (fun d => 0 <=? d) (weight_dims tr ic oc gr ks) = true ->
  can_allocate (weight_dims tr ic oc gr ks) = inr tt ->
  0 <= oc -> can_allocate [oc] = inr tt ->
  kaiming_bound (weight_dims tr ic oc gr ks) = inr kb ->
  to_dtype ls = inr c ->
  _calculate_fan_in_and_fan_out (weight_dims tr ic oc gr ks) = inr (0, fan_out) ->
  fst (_BayesConvNd.__init__ mu ls ic oc ks st pd dl tr op gr true pm g)
    = Err ZeroDivisionError /\
  exists l g',
    _BayesConvNd.__init__ mu ls ic oc ks st pd dl tr op gr false pm g = (Ok l, g').
Proof.
  intros Hgr Hic Hoc Hdims Halloc Hpos Hallocb Hk Hc Hf. split.
  - rewrite init_reaches_reset by auto.
    unfold _BayesConvNd.reset_parameters. cbn [weight_mu the_tensor].
    unfold bind at 1. unfold ret at 1.
    unfold bind at 1.
    rewrite (kaiming_uniform__eq (allocated (weight_dims tr ic oc gr ks)) kb g Hk).
    cbn [weight_log_sigma set_weight_mu the_tensor].
    unfold bind at 1. unfold ret at 1.
    cbn [prior_log_sigma]. unfold bind at 1. rewrite (fill__eq _ _ c _ Hc).
    cbn [bias set_weight_log_sigma set_weight_mu weight_mu the_tensor].
    unfold bind at 1. unfold ret at 1. cbn [shape].
    unfold allocated at 1. cbn [shape]. rewrite Hf.
    unfold from_torch. cbn [torch_outcome]. unfold bind at 1.
    unfold bind at 1. reflexivity.
  - eapply init_succeeds with (bound := kb) (c := c); try eassumption;
      discriminate.
Qed.

Lemma init_zero_fan_in_witness :
  fst (_BayesConvNd.__init__ (T := Ints.torch_lenient) 0 1 0 2 [3; 3] [1; 1]
         [1; 1] [1; 1] false [0; 0] 1 true "zeros" 0)
    = Err ZeroDivisionError /\
  exists l g',
    _BayesConvNd.__init__ (T := Ints.torch_lenient) 0 1 0 2 [3; 3] [1; 1]
      [1; 1] [1; 1] false [0; 0] 1 false "zeros" 0 = (Ok l, g').
Proof.
  apply (init_zero_fan_in (T := Ints.torch_lenient) 0 1 0 2 [3; 3] [1; 1]
           [1; 1] [1; 1] false [0; 0] 1 "zeros" 0 0 1 18).
  - lia.
  - reflexivity.
  - reflexivity.
  - reflexivity.
  - reflexivity.
  - lia.
  - reflexivity.
  - reflexivity.
  - reflexivity.
  - reflexivity.
Defined.

(** X4: the order of the constructor's failures.  Both divisibility
    checks run before anything is allocated or drawn: when [in_channels]
    is not divisible, its error is the one raised, whatever
    [out_channels] is; the [out_channels] error is raised only when
    [in_channels] is divisible; in both cases the generator is untouched
    and a negative size plays no role. *)
Theorem init_check_order {F G} `{T : Torch F G}
    (mu ls : F) ic oc ks st pd dl tr op gr b pm (g : G) :
  gr <> 0 ->
  (ic mod gr <> 0 ->
   _BayesConvNd.__init__ mu ls ic oc ks st pd dl tr op gr b pm g
     = (Err (ValueError "in_channels must be divisible by groups"), g)) /\
  (ic mod gr = 0 -> oc mod gr <> 0 ->
   _BayesConvNd.__init__ mu ls ic oc ks st pd dl tr op gr b pm g
     = (Err (ValueError "out_channels must be divisible by groups"), g)).
Proof.
  intros Hgr. split.
  - intros Hic. now apply init_in_channels_check.
  - intros Hic Hoc. now apply init_out_channels_check.
Qed.

Lemma init_check_order_witness :
  2 <> 0 /\
  _BayesConvNd.__init__ (T := Ints.torch) 0 1 3 (-5) [3; 3] [1; 1] [1; 1] [1; 1]
      false [0; 0] 2 true "zeros" 7
    = (Err (ValueError "in_channels must be divisible by groups"), 7).
Proof.
  assert (H2 : 2 <> 0) by lia. split; [exact H2|].
  apply (proj1 (init_check_order (T := Ints.torch) 0 1 3 (-5) [3; 3] [1; 1]
                  [1; 1] [1; 1] false [0; 0] 2 true "zeros" 7 H2)).
  vm_compute. discriminate.
Defined.

(** A negative weight size stops the constructor at [torch.Tensor]. *)
Lemma init_negative_dims {F G} `{T : Torch F G}
    (mu ls : F) ic oc ks st pd dl tr op gr b pm (g : G) :
  gr <> 0 -> ic mod gr = 0 -> oc mod gr = 0 ->
  forallb (fun d => 0 <=? d) (weight_dims tr ic oc gr ks) = false ->
  _BayesConvNd.__init__ mu ls ic oc ks st pd dl tr op gr b pm g
    = (Err (TorchError "negative dimension"), g).
Proof.
  intros Hgr Hic Hoc Hdims.
  unfold _BayesConvNd.__init__, py_mod. apply Z.eqb_neq in Hgr. rewrite Hgr.
  unfold bind at 1. unfold ret at 1. rewrite Hic. cbn [Z.eqb negb].
  unfold bind at 1. unfold ret at 1. rewrite Hoc. cbn [Z.eqb negb].
  unfold bind at 1. unfold weight_dims in Hdims.
  unfold py_floordiv, torch_Tensor. rewrite Hgr.
  destruct tr; unfold bind at 1; unfold ret at 1; unfold bind at 1;
    rewrite Hdims; reflexivity.
Qed.

(** A [torch.Tensor] that returns was given sizes it can provide. *)
Lemma torch_Tensor_Ok_inv {F G} `{T : Torch F G} dims (g g' : G) (t : Tensor F) :
  torch_Tensor dims g = (Ok t, g') ->
  forallb (fun d => 0 <=? d) dims = true /\ can_allocate dims = inr tt.
Proof.
  unfold torch_Tensor. destruct (forallb _ dims); [|discriminate].
  intros H. apply bind_Ok in H. destruct H as (u & g1 & Hc & _).
  apply from_torch_Ok in Hc. destruct Hc as [Hc _]. destruct u. auto.
Qed.

(** A construction that returns has allocated its tensors. *)
Lemma init_allocates {F G} `{T : Torch F G}
    mu ls ic oc ks st pd dl tr op gr b pm (g g' : G) (l : Layer F) :
  _BayesConvNd.__init__ mu ls ic oc ks st pd dl tr op gr b pm g = (Ok l, g') ->
  forallb (fun d => 0 <=? d) (weight_dims tr ic oc gr ks) = true /\
  can_allocate (weight_dims tr ic oc gr ks) = inr tt /\
  (b = true -> 0 <= oc /\ can_allocate [oc] = inr tt).
Proof.
  unfold _BayesConvNd.__init__. intros H.
  apply bind_Ok in H. destruct H as (r1 & g1 & H1 & H).
  apply py_mod_Ok in H1. destruct H1 as (Hgr & -> & ->).
  destruct (ic mod gr =? 0) eqn:E1; simpl in H; [|discriminate].
  apply bind_Ok in H. destruct H as (r2 & g2 & H2 & H).
  apply py_mod_Ok in H2. destruct H2 as (_ & -> & ->).
  destruct (oc mod gr =? 0) eqn:E2; simpl in H; [|discriminate].
  apply bind_Ok in H. destruct H as ([wm wls] & g3 & Hw & H).
  apply bind_Ok in H. destruct H as ([bm bls] & g4 & Hb & _).
  assert (Hw' : forallb (fun d => 0 <=? d) (weight_dims tr ic oc gr ks) = true /\
                can_allocate (weight_dims tr ic oc gr ks) = inr tt /\ g3 = g).
  { unfold weight_dims. destruct tr.
    - rewrite (bind_eq_Ok _ _ _ _ _ (py_floordiv_nonzero oc gr g Hgr)) in Hw.
      apply bind_Ok in Hw. destruct Hw as (t1 & g5 & Ht1 & Hw).
      pose proof (torch_Tensor_Ok_inv _ _ _ _ Ht1) as [Hd Ha].
      apply torch_Tensor_Ok in Ht1. destruct Ht1 as [-> ->].
      rewrite (bind_eq_Ok _ _ _ _ _ (py_floordiv_nonzero oc gr g Hgr)) in Hw.
      apply bind_Ok in Hw. destruct Hw as (t2 & g6 & Ht2 & Hw).
      apply torch_Tensor_Ok in Ht2. destruct Ht2 as [-> ->].
      apply ret_Ok in Hw. destruct Hw as [_ <-]. auto.
    - rewrite (bind_eq_Ok _ _ _ _ _ (py_floordiv_nonzero ic gr g Hgr)) in Hw.
      apply bind_Ok in Hw. destruct Hw as (t1 & g5 & Ht1 & Hw).
      pose proof (torch_Tensor_Ok_inv _ _ _ _ Ht1) as [Hd Ha].
      apply torch_Tensor_Ok in Ht1. destruct Ht1 as [-> ->].
      rewrite (bind_eq_Ok _ _ _ _ _ (py_floordiv_nonzero ic gr g Hgr)) in Hw.
      apply bind_Ok in Hw. destruct Hw as (t2 & g6 & Ht2 & Hw).
      apply torch_Tensor_Ok in Ht2. destruct Ht2 as [-> ->].
      apply ret_Ok in Hw. destruct Hw as [_ <-]. auto. }
  destruct Hw' as (Hd & Ha & ->).
  split; [exact Hd|]. split; [exact Ha|]. intros ->.
  apply bind_Ok in Hb. destruct Hb as (t1 & g5 & Ht1 & _).
  apply torch_Tensor_Ok_inv in Ht1. destruct Ht1 as [Hd1 Ha1].
  cbn [forallb] in Hd1. rewrite andb_true_r in Hd1. apply Z.leb_le in Hd1. auto.
Qed.

(** X5: the checks do not look at signs.  A configuration whose channel
    counts are divisible by [groups] but which gives the weight tensor a
    negative size (Python's [%] and [//] floor, so [in_channels = -4],
    [groups = 2] passes with [-4 // 2 = -2]) is rejected only by
    [torch.Tensor], with PyTorch's exception and not with one of the
    constructor's [ValueError]s, before anything is drawn. *)
Theorem init_negative_size {F G} `{T : Torch F G}
    (mu ls : F) ic oc ks st pd dl tr op gr b pm (g : G) :
  gr <> 0 -> ic mod gr = 0 -> oc mod gr = 0 ->
  forallb (fun d => 0 <=? d) (weight_dims tr ic oc gr ks) = false ->
  _BayesConvNd.__init__ mu ls ic oc ks st pd dl tr op gr b pm g
    = (Err (TorchError "negative dimension"), g) /\
  ~ InvalidConfiguration (TorchError "negative dimension").
Proof.
  intros Hgr Hic Hoc Hdims. split.
  - now apply init_negative_dims.
  - intros [X|X]; discriminate X.
Qed.

Lemma init_negative_size_witness :
  _BayesConvNd.__init__ (T := Ints.torch) 0 1 (-4) 2 [3; 3] [1; 1] [1; 1] [1; 1]
      false [0; 0] 2 true "zeros" 7
    = (Err (TorchError "negative dimension"), 7) /\
  ~ InvalidConfiguration (TorchError "negative dimension").
Proof.
  apply (init_negative_size (T := Ints.torch) 0 1 (-4) 2 [3; 3] [1; 1] [1; 1]
           [1; 1] false [0; 0] 2 true "zeros" 7).
  - lia.
  - reflexivity.
  - reflexivity.
  - reflexivity.
Defined.

(** ** Further properties of [reset_parameters] *)

(** X6: re-initialising a layer.  Called on any well-formed layer,
    whatever its statistics hold by then, a [reset_parameters] that
    returns leaves a well-formed layer with the same configuration and the
    same tensor shapes, whose log-sigma tensors hold, in every element, the
    value [prior_log_sigma] converts to in the element type of the
    tensors. *)
Theorem reset_parameters_reinitialises {F G} `{T : Torch F G}
    (l l' : Layer F) (g g' : G) :
  wf_layer l ->
  _BayesConvNd.reset_parameters l g = (Ok l', g') ->
  wf_layer l' /\
  l' = set_bias_log_sigma
         (set_bias_mu
            (set_weight_log_sigma (set_weight_mu l (weight_mu l'))
               (weight_log_sigma l'))
            (bias_mu l'))
         (bias_log_sigma l') /\
  exists c,
    to_dtype (prior_log_sigma l) = inr c /\
    (exists wm wm' wls',
        weight_mu l = Some wm /\ weight_mu l' = Some wm' /\
        weight_log_sigma l' = Some wls' /\
        shape wm' = shape wm /\ shape wls' = shape wm /\
        Forall (fun v => v = c) (data wls')) /\
    (bias l = true ->
     exists bm bm' bls',
        bias_mu l = Some bm /\ bias_mu l' = Some bm' /\
        bias_log_sigma l' = Some bls' /\
        shape bm' = shape bm /\ shape bls' = shape bm /\
        Forall (fun v => v = c) (data bls')).
Proof.
  intros [(wm & wls & Hwm & Hwls & Hs & Hwfm & Hwfls) Hbias] H.
  pose proof (reset_parameters_converts l l' g g' wm wls Hwm Hwls H) as Hc.
  pose proof (reset_parameters_Ok l l' g g' wm wls Hwm Hwls H) as R.
  destruct R as (E1 & E2 & E3 & E4 & E5 & E6 & E7 & E8 & E9 & E10 & E11 & E12
                 & E13 & (wm' & Hwm' & Hs' & Hl') & Hwls' & Hb).
  set (c := converted (prior_log_sigma l)) in *.
  assert (Hwf' : wf_stats (weight_mu l') (weight_log_sigma l')).
  { exists wm', (filled wls c). repeat split; auto.
    - cbn. congruence.
    - unfold wf_tensor in *. congruence.
    - now apply fill__wf. }
  split; [split; [exact Hwf'|]|split; [|exists c; split; [exact Hc|split]]].
  - rewrite E13. intros Hbt. rewrite Hbt in Hb.
    destruct (Hbias Hbt) as (bm & bls & Hbm & Hbls & Hbs & Hwfbm & Hwfbls).
    destruct Hb as (bm0 & bls0 & bm' & Hbm0 & Hbls0 & Hbm' & Hbs' & Hbl' & Hbls').
    rewrite Hbm in Hbm0. rewrite Hbls in Hbls0.
    injection Hbm0 as <-. injection Hbls0 as <-.
    exists bm', (filled bls c). repeat split; auto.
    + cbn. congruence.
    + unfold wf_tensor in *. congruence.
    + now apply fill__wf.
  - clear Hc. subst c. destruct l, l'. cbn in *. subst. reflexivity.
  - exists wm, wm', (filled wls c).
    repeat split; auto. apply fill__all.
  - intros Hbt. rewrite Hbt in Hb.
    destruct (Hbias Hbt) as (bm & bls & Hbm & Hbls & Hbs & _).
    destruct Hb as (bm0 & bls0 & bm' & Hbm0 & Hbls0 & Hbm' & Hbs' & Hbl' & Hbls').
    rewrite Hbm in Hbm0. rewrite Hbls in Hbls0.
    injection Hbm0 as <-. injection Hbls0 as <-.
    exists bm, bm', (filled bls c).
    repeat split; auto. apply fill__all.
Qed.

Lemma trained_wf : wf_layer Ints.trained.
Proof.
  split.
  - eexists; eexists. split; [vm_compute; reflexivity|].
    split; [vm_compute; reflexivity|]. repeat split; reflexivity.
  - intros _. eexists; eexists. split; [vm_compute; reflexivity|].
    split; [vm_compute; reflexivity|]. repeat split; reflexivity.
Qed.

Lemma reset_parameters_reinitialises_witness :
  wf_layer Ints.trained /\
  _BayesConvNd.reset_parameters Ints.trained 100 = (Ok Ints.retrained, 138) /\
  wf_layer Ints.retrained /\
  exists c wls',
    to_dtype (prior_log_sigma Ints.trained) = inr c /\
    weight_log_sigma Ints.retrained = Some wls' /\
    Forall (fun v => v = c) (data wls').
Proof.
  assert (E : _BayesConvNd.reset_parameters Ints.trained 100
              = (Ok Ints.retrained, 138)) by (vm_compute; reflexivity).
  split; [exact trained_wf|]. split; [exact E|].
  destruct (reset_parameters_reinitialises _ _ _ _ trained_wf E)
    as (Hwf & _ & c & Hc & (wm & wm' & wls' & _ & _ & Hwls & _ & _ & Hall) & _).
  split; [exact Hwf|]. exists c, wls'. auto.
Defined.

(** ** Further properties of the forward pass *)

Lemma draw_snd_add {G A} (d : G -> A * G) n m (g : G) :
  snd (draw d (n + m) g) = snd (draw d m (snd (draw d n g))).
Proof.
  revert g. induction n as [|n IH]; intros g; cbn [draw Nat.add].
  - reflexivity.
  - destruct (d g) as [x g1]. specialize (IH g1).
    destruct (draw d (n + m) g1) as [xs g2].
    destruct (draw d n g1) as [ys g3]. exact IH.
Qed.

Lemma noise_like_snd {F G} `{T : Torch F G} (t : Tensor F) (g : G) :
  snd (noise_like t g) = snd (draw randn (Z.to_nat (numel (shape t))) g).
Proof. unfold noise_like. destruct (draw randn _ g). reflexivity. Qed.

(** X7: what a forward call takes from the generator.  On a well-formed
    layer it makes exactly as many standard-normal draws as
    [weight_log_sigma] has elements, plus as many as [bias_log_sigma] has
    when the layer has a bias; this does not depend on the input, on the
    padding mode, or on whether the engine raises. *)
Theorem forward_draw_count {F G} `{T : Torch F G} (l : Layer F) x (g : G) :
  wf_layer l ->
  snd (BayesConv2d.forward l x g) = snd (draw randn (draws_per_forward l) g).
Proof.
  intros Hwf. destruct (forward_eq l x g Hwf) as (W & B & g2 & Hsam & Hfw).
  rewrite Hfw, (engine_call_state l x W B g2 g2). cbn [snd].
  destruct Hwf as [(wm & wls & Hwm & Hwls & _) Hbias].
  unfold forward_samples in Hsam. unfold draws_per_forward.
  rewrite Hwm, Hwls in Hsam. rewrite Hwls.
  pose proof (noise_like_snd wls g) as Hw.
  destruct (noise_like wls g) as [wn g1]. cbn [snd] in Hw.
  destruct (bias l) eqn:Hb.
  - destruct (Hbias eq_refl) as (bm & bls & Hbm & Hbls & _).
    rewrite Hbm, Hbls in Hsam. rewrite Hbls.
    pose proof (noise_like_snd bls g1) as Hbn.
    destruct (noise_like bls g1) as [bn g2']. cbn [snd] in Hbn.
    injection Hsam as _ _ <-. rewrite draw_snd_add, <- Hw. exact Hbn.
  - injection Hsam as _ _ <-. now rewrite Nat.add_0_r.
Qed.

Lemma forward_draw_count_witness :
  wf_layer (Ints.built 1 true "circular") /\
  snd (BayesConv2d.forward (Ints.built 1 true "circular") Ints.ones 38) = 76.
Proof.
  assert (Hwf : wf_layer (Ints.built 1 true "circular")).
  { apply (built_wf 1 true "circular" 38). vm_compute. reflexivity. }
  split; [exact Hwf|].
  rewrite (forward_draw_count _ Ints.ones 38 Hwf). vm_compute. reflexivity.
Defined.

(** X8: the exceptions of a forward call.  On a well-formed layer in
    circular mode whose padding has fewer than two entries, [forward]
    raises [IndexError]; and whatever a forward call of a well-formed layer
    raises is either that [IndexError] or an exception of PyTorch's [F.pad]
    or [F.conv2d]. *)
Theorem forward_exceptions {F G} `{T : Torch F G} (l : Layer F) x (g : G) :
  wf_layer l ->
  (padding_mode l = "circular" -> (length (padding l) < 2)%nat ->
   fst (BayesConv2d.forward l x g) = Err IndexError) /\
  (forall e, fst (BayesConv2d.forward l x g) = Err e ->
     (e = IndexError /\ padding_mode l = "circular" /\ (length (padding l) < 2)%nat)
     \/ exists msg, e = TorchError msg).
Proof.
  intros Hwf. destruct (forward_eq l x g Hwf) as (W & B & g2 & _ & Hfw).
  rewrite Hfw. clear Hfw Hwf. unfold BayesConv2d.engine_call. split.
  - intros Hm Hlen. rewrite Hm, String.eqb_refl. unfold bind, py_index.
    destruct (padding l) as [|p0 [|p1 rest]]; cbn in *; try reflexivity. lia.
  - intros e. destruct (String.eqb (padding_mode l) "circular") eqn:Em.
    + apply String.eqb_eq in Em. unfold bind, py_index.
      destruct (padding l) as [|p0 [|p1 rest]]; cbn.
      * intros H. injection H as <-. left. repeat split; auto.
      * intros H. injection H as <-. left. repeat split; auto.
      * destruct (pad x _ _) as [msg|padded]; cbn.
        -- intros H. injection H as <-. right. eauto.
        -- destruct (conv2d padded _ _ _ _ _ _) as [msg|y]; cbn;
             [|discriminate]. intros H. injection H as <-. right. eauto.
    + cbn. destruct (conv2d x _ _ _ _ _ _) as [msg|y]; cbn; [|discriminate].
      intros H. injection H as <-. right. eauto.
Qed.

Lemma forward_exceptions_witness :
  wf_layer Ints.built_short_padding /\
  fst (BayesConv2d.forward Ints.built_short_padding Ints.ones 38) = Err IndexError.
Proof.
  assert (E : _BayesConvNd.__init__ (T := Ints.torch) 0 1 4 2 [3; 3] [1; 1]
                [1] [1; 1] false [0; 0] 2 true "circular" 0
              = (Ok Ints.built_short_padding, 38)) by (vm_compute; reflexivity).
  pose proof (init_wf _ _ _ _ _ _ _ _ _ _ _ _ _ _ _ _ E) as Hwf.
  split; [exact Hwf|].
  apply (proj1 (forward_exceptions _ Ints.ones 38 Hwf)).
  - vm_compute. reflexivity.
  - vm_compute. lia.
Defined.

(** X9: how much circular mode pads.  For a padding [(p0, p1)] the four
    amounts handed to [F.pad] add up to [p1] for the last dimension and to
    [p0] for the one before it (the configured padding is split between the
    two sides, not applied to each), the leading side getting the larger
    half; no amount is negative when the padding is not. *)
Theorem circular_padding_total {F G} `{T : Torch F G}
    (l : Layer F) p0 p1 rest :
  padding_mode l = "circular" -> padding l = p0 :: p1 :: rest ->
  exists left right top bottom,
    (forall x w b (g : G),
        BayesConv2d.engine_call l x w b g
          = (match pad x [left; right; top; bottom] "circular" with
             | inl msg => Err (TorchError msg)
             | inr padded =>
                 torch_outcome
                   (conv2d padded w b (stride l) [0; 0] (dilation l) (groups l))
             end, g)) /\
    left + right = p1 /\ top + bottom = p0 /\
    right <= left <= right + 1 /\ bottom <= top <= bottom + 1 /\
    (0 <= p1 -> 0 <= right) /\ (0 <= p0 -> 0 <= bottom).
Proof.
  intros Hm Hp.
  exists ((p1 + 1) / 2), (p1 / 2), ((p0 + 1) / 2), (p0 / 2).
  split.
  - intros x w b g. now apply engine_call_circular with (rest := rest).
  - pose proof (Z.div_mod p1 2). pose proof (Z.mod_pos_bound p1 2).
    pose proof (Z.div_mod (p1 + 1) 2). pose proof (Z.mod_pos_bound (p1 + 1) 2).
    pose proof (Z.div_mod p0 2). pose proof (Z.mod_pos_bound p0 2).
    pose proof (Z.div_mod (p0 + 1) 2). pose proof (Z.mod_pos_bound (p0 + 1) 2).
    lia.
Qed.

Lemma circular_padding_total_witness :
  padding_mode (Ints.built 1 true "circular") = "circular" /\
  padding (Ints.built 1 true "circular") = [1; 1] /\
  exists left right top bottom,
    left + right = 1 /\ top + bottom = 1 /\
    BayesConv2d.engine_call (Ints.built 1 true "circular") Ints.ones
      Ints.ones None 0
      = (match pad Ints.ones [left; right; top; bottom] "circular" with
         | inl msg => Err (TorchError msg)
         | inr padded =>
             torch_outcome (conv2d padded Ints.ones None [1; 1] [0; 0] [1; 1] 2)
         end, 0).
Proof.
  assert (Hm : padding_mode (Ints.built 1 true "circular") = "circular")
    by (vm_compute; reflexivity).
  assert (Hp : padding (Ints.built 1 true "circular") = [1; 1])
    by (vm_compute; reflexivity).
  split; [exact Hm|]. split; [exact Hp|].
  destruct (circular_padding_total (G := Z) _ 1 1 [] Hm Hp)
    as (a & b & c & d & Hcall & Hab & Hcd & _).
  exists a, b, c, d. split; [exact Hab|]. split; [exact Hcd|].
  exact (Hcall Ints.ones Ints.ones None 0).
Defined.

(** The attributes a successful construction stores. *)
Lemma init_config {F G} `{T : Torch F G}
    (mu ls : F) ic oc ks st pd dl tr op gr b pm (g g' : G) (l : Layer F) :
  _BayesConvNd.__init__ mu ls ic oc ks st pd dl tr op gr b pm g = (Ok l, g') ->
  stride l = st /\ padding l = pd /\ dilation l = dl /\ groups l = gr /\
  padding_mode l = pm /\ bias l = b.
Proof.
  intros E. apply init_Ok in E. destruct E as (_ & _ & _ & E).
  eapply reset_parameters_Ok in E; [|reflexivity|reflexivity].
  cbn in E. intuition.
Qed.

(** X10: the constructor and the forward pass together.  Every forward
    call of a layer built by [BayesConv2d(...)] draws its samples and
    calls [F.conv2d] (on the input with the normalised padding or, in
    circular mode, on the input pre-padded by [F.pad], with padding
    [(0, 0)]) with the normalised stride and dilation, the given groups, a
    weight of shape [(out_channels, in_channels // groups) +
    _pair(kernel_size)] and, with a bias, a bias of shape
    [(out_channels,)], each with as many elements as its shape says;
    without a bias it passes [None]. *)
Theorem constructed_forward_shapes {F G} `{T : Torch F G}
    (mu ls : F) ic oc ks st pd dl gr b pm (g g' : G) (l : Layer F) :
  BayesConv2d.__init__ mu ls ic oc ks st pd dl gr b pm g = (Ok l, g') ->
  forall x g1,
  exists W B g2,
    forward_samples l g1 = Some (W, B, g2) /\
    BayesConv2d.forward l x g1
      = (if (pm =? "circular")%string
         then match _pair pd with
              | p0 :: p1 :: _ =>
                  match pad x [(p1 + 1) / 2; p1 / 2; (p0 + 1) / 2; p0 / 2]
                          "circular" with
                  | inl msg => Err (TorchError msg)
                  | inr padded =>
                      torch_outcome
                        (conv2d padded W B (_pair st) [0; 0] (_pair dl) gr)
                  end
              | _ => Err IndexError
              end
         else torch_outcome (conv2d x W B (_pair st) (_pair pd) (_pair dl) gr),
         g2) /\
    shape W = oc :: ic / gr :: _pair ks /\ wf_tensor W /\
    if b
    then exists Bt, B = Some Bt /\ shape Bt = [oc] /\ wf_tensor Bt
    else B = None.
Proof.
  unfold BayesConv2d.__init__. intros E x g1.
  pose proof (init_wf _ _ _ _ _ _ _ _ _ _ _ _ _ _ _ _ E) as Hwf.
  pose proof (init_fields _ _ _ _ _ _ _ _ _ _ _ _ _ _ _ _ E) as Hf.
  destruct (forward_eq l x g1 Hwf) as (W & B & g2 & Hsam & Hfw).
  rewrite engine_call_outcome in Hfw.
  destruct (init_config _ _ _ _ _ _ _ _ _ _ _ _ _ _ _ _ E)
    as (Hst & Hpd & Hdl & Hgr & Hpm & _).
  rewrite Hst, Hpd, Hdl, Hgr, Hpm in Hfw.
  exists W, B, g2. split; [exact Hsam|]. split; [exact Hfw|].
  destruct Hf as (_ & _ & _ & Hb & _ & (wm & Hwm & Hs & Hwfm) & Hwls & Hbias).
  unfold forward_samples in Hsam. rewrite Hwm, Hwls, Hb in Hsam.
  set (wls := filled (allocated (weight_dims false ic oc gr (_pair ks))) (converted ls)) in *.
  assert (Hwfls : wf_tensor wls) by apply fill__wf, allocated_wf.
  assert (Hsls : shape wls = shape wm) by (rewrite Hs; reflexivity).
  pose proof (noise_like_length wls g1) as Hnl.
  destruct (noise_like wls g1) as [wn g1'].
  cbn [fst] in Hnl.
  assert (HW : wf_tensor (reparam wm wls wn)).
  { unfold wf_tensor in *. rewrite reparam_length; cbn [reparam shape]; congruence. }
  destruct b.
  - destruct Hbias as [(bm & Hbm & Hbs & Hwfb) Hbls]. rewrite Hbm, Hbls in Hsam.
    set (bls := filled (allocated [oc]) (converted ls)) in *.
    assert (Hwfbls : wf_tensor bls) by apply fill__wf, allocated_wf.
    assert (Hsbls : shape bls = shape bm) by (rewrite Hbs; reflexivity).
    pose proof (noise_like_length bls g1') as Hbnl.
    destruct (noise_like bls g1') as [bn g2']. cbn [fst] in Hbnl.
    injection Hsam as <- <- <-. split; [exact Hs|]. split; [exact HW|].
    exists (reparam bm bls bn). split; [reflexivity|]. split; [exact Hbs|].
    unfold wf_tensor in *. rewrite reparam_length; cbn [reparam shape]; congruence.
  - injection Hsam as <- <- <-. split; [exact Hs|]. split; [exact HW|]. reflexivity.
Qed.

Lemma constructed_forward_shapes_witness :
  BayesConv2d.__init__ (T := Ints.torch) 0 1 4 2 (Int 3) (Int 1) (Int 1) (Int 1)
      2 true "zeros" 0
    = (Ok (Ints.built 1 true "zeros"), 38) /\
  exists W B g2,
    forward_samples (Ints.built 1 true "zeros") 38 = Some (W, B, g2) /\
    BayesConv2d.forward (Ints.built 1 true "zeros") Ints.ones 38
      = (torch_outcome (conv2d Ints.ones W B [1; 1] [1; 1] [1; 1] 2), g2) /\
    shape W = [2; 4 / 2; 3; 3].
Proof.
  assert (E : BayesConv2d.__init__ (T := Ints.torch) 0 1 4 2 (Int 3) (Int 1)
                (Int 1) (Int 1) 2 true "zeros" 0
              = (Ok (Ints.built 1 true "zeros"), 38)) by (vm_compute; reflexivity).
  split; [exact E|].
  destruct (constructed_forward_shapes _ _ _ _ _ _ _ _ _ _ _ _ _ _ E Ints.ones 38)
    as (W & B & g2 & Hsam & Hfw & Hs & _).
  exists W, B, g2. split; [exact Hsam|]. split; [exact Hfw | exact Hs].
Defined.

Lemma engine_call_two_entries {F G} `{T : Torch F G}
    (l : Layer F) x w b (g : G) p0 p1 rest :
  padding l = p0 :: p1 :: rest ->
  fst (BayesConv2d.engine_call l x w b g) <> Err IndexError.
Proof.
  intros Hp. destruct (String.eqb (padding_mode l) "circular") eqn:Em.
  - apply String.eqb_eq in Em.
    rewrite (engine_call_circular l x w b g p0 p1 rest Em Hp). cbn [fst].
    destruct (pad x _ _) as [msg|padded]; [discriminate|].
    destruct (conv2d padded _ _ _ _ _ _); discriminate.
  - apply String.eqb_neq in Em. rewrite (engine_call_direct l x w b g Em).
    cbn [fst]. destruct (conv2d x _ _ _ _ _ _); discriminate.
Qed.

(** X11: the [padding] argument and the forward pass.  [_pair] repeats an
    integer and passes a tuple through unchecked, so: a layer built with an
    integer padding [p] never raises [IndexError] in [forward], and in
    circular mode pads by [((p+1)//2, p//2, (p+1)//2, p//2)] before calling
    the engine with padding [(0, 0)]; a layer built in circular mode with a
    padding tuple of fewer than two entries is constructed all the same,
    and every forward call of it raises [IndexError]. *)
Theorem padding_argument_forward {F G} `{T : Torch F G}
    (mu ls : F) ic oc ks st pd dl gr b pm (g g' : G) (l : Layer F) :
  BayesConv2d.__init__ mu ls ic oc ks st pd dl gr b pm g = (Ok l, g') ->
  (forall p, pd = Int p ->
     forall x g1,
       fst (BayesConv2d.forward l x g1) <> Err IndexError /\
       (pm = "circular" ->
        forall W B g2, forward_samples l g1 = Some (W, B, g2) ->
          BayesConv2d.forward l x g1
            = (match pad x [(p + 1) / 2; p / 2; (p + 1) / 2; p / 2] "circular" with
               | inl msg => Err (TorchError msg)
               | inr padded =>
                   torch_outcome
                     (conv2d padded W B (_pair st) [0; 0] (_pair dl) gr)
               end, g2))) /\
  (forall t, pd = Tuple t -> (length t < 2)%nat -> pm = "circular" ->
     forall x g1, fst (BayesConv2d.forward l x g1) = Err IndexError).
Proof.
  unfold BayesConv2d.__init__. intros E.
  pose proof (init_wf _ _ _ _ _ _ _ _ _ _ _ _ _ _ _ _ E) as Hwf.
  destruct (init_config _ _ _ _ _ _ _ _ _ _ _ _ _ _ _ _ E)
    as (Hst & Hpd & Hdl & Hgr & Hpm & _).
  split.
  - intros p -> x g1. cbn [_pair] in Hpd.
    destruct (forward_eq l x g1 Hwf) as (W & B & g2 & Hsam & Hfw).
    split.
    + rewrite Hfw. now apply engine_call_two_entries with (p0 := p) (p1 := p) (rest := []).
    + intros -> W' B' g2' Hsam'. rewrite Hsam in Hsam'. injection Hsam' as <- <- <-.
      rewrite Hfw, (engine_call_circular l x W B g2 p p [] Hpm Hpd).
      now rewrite Hst, Hdl, Hgr.
  - intros t -> Hlen -> x g1. cbn [_pair] in Hpd.
    destruct (forward_eq l x g1 Hwf) as (W & B & g2 & _ & Hfw).
    rewrite Hfw. unfold BayesConv2d.engine_call.
    rewrite Hpm, String.eqb_refl, Hpd. unfold bind, py_index.
    destruct t as [|p0 [|p1 rest]]; cbn in *; try reflexivity. lia.
Qed.

Lemma padding_argument_forward_witness :
  BayesConv2d.__init__ (T := Ints.torch) 0 1 4 2 (Int 3) (Int 1) (Tuple [1])
      (Int 1) 2 true "circular" 0
    = (Ok Ints.built_short_padding, 38) /\
  fst (BayesConv2d.forward Ints.built_short_padding Ints.ones 38) = Err IndexError.
Proof.
  assert (E : BayesConv2d.__init__ (T := Ints.torch) 0 1 4 2 (Int 3) (Int 1)
                (Tuple [1]) (Int 1) 2 true "circular" 0
              = (Ok Ints.built_short_padding, 38)) by (vm_compute; reflexivity).
  split; [exact E|].
  apply (proj2 (padding_argument_forward _ _ _ _ _ _ _ _ _ _ _ _ _ _ E) [1] eq_refl).
  - cbn. lia.
  - reflexivity.
Defined.

(** ** Restoring a pickled layer *)

(** X12: [__setstate__] and [padding_mode].  Provided
    [Module.__setstate__] leaves in [padding_mode] what updating the
    instance dictionary with the state leaves there, the restored object
    always has a [padding_mode]: the one of the state if the state has
    one, else the one the object already had, else ['zeros']; and every
    other attribute is as [Module.__setstate__] left it. *)
Theorem setstate_padding_mode {V : Type}
    (Module_setstate : attrs V -> attrs V -> attrs V) (str : string -> V)
    (self state : attrs V) :
  Module_setstate self state "padding_mode" = dict_update self state "padding_mode" ->
  __setstate__ Module_setstate str self state "padding_mode"
    = Some match state "padding_mode" with
           | Some m => m
           | None => match self "padding_mode" with
                     | Some m => m
                     | None => str "zeros"
                     end
           end /\
  forall name, name <> "padding_mode" ->
    __setstate__ Module_setstate str self state name = Module_setstate self state name.
Proof.
  intros Hup. unfold __setstate__, hasattr. rewrite Hup. unfold dict_update.
  split.
  - destruct (state "padding_mode") as [m|] eqn:Es; cbn.
    + rewrite Hup. unfold dict_update. now rewrite Es.
    + destruct (self "padding_mode") as [m|] eqn:Eo; cbn.
      * rewrite Hup. unfold dict_update. now rewrite Es, Eo.
      * reflexivity.
  - intros name Hne.
    destruct (match state "padding_mode" with Some v => Some v | None => self "padding_mode" end);
      cbn; [reflexivity|].
    unfold setattr. apply String.eqb_neq in Hne. now rewrite Hne.
Qed.

Lemma setstate_padding_mode_witness :
  __setstate__ (V := string) dict_update (fun s => s) (fun _ => None)
      (fun k => if (k =? "groups")%string then Some "1" else None) "padding_mode"
    = Some "zeros" /\
  __setstate__ (V := string) dict_update (fun s => s) (fun _ => None)
      (fun k => if (k =? "groups")%string then Some "1" else None) "groups"
    = Some "1".
Proof.
  destruct (setstate_padding_mode (V := string) dict_update (fun s => s)
              (fun _ => None)
              (fun k => if (k =? "groups")%string then Some "1" else None)
              eq_refl) as [H1 H2].
  split; [exact H1|]. rewrite H2 by discriminate. reflexivity.
Defined.

(** ** When the constructor returns *)

(** X13: the constructor returns a layer exactly when [groups] is not 0,
    both channel counts are divisible by it, no size of the weight tensor
    is negative and [torch.Tensor] can allocate it, [out_channels] is not
    negative and [torch.Tensor] can allocate the bias tensors when there is
    a bias, the Kaiming initialiser does not raise on the weight shape,
    [prior_log_sigma] converts to the element type and, when there is a
    bias, the fan-in of the weight tensor is computed and positive. *)
Theorem init_returns_iff {F G} `{T : Torch F G}
    (mu ls : F) ic oc ks st pd dl tr op gr b pm (g : G) :
  (exists l g',
      _BayesConvNd.__init__ mu ls ic oc ks st pd dl tr op gr b pm g = (Ok l, g'))
  <->
  (gr <> 0 /\ ic mod gr = 0 /\ oc mod gr = 0 /\
   forallb (fun d => 0 <=? d) (weight_dims tr ic oc gr ks) = true /\
   can_allocate (weight_dims tr ic oc gr ks) = inr tt /\
   (b = true -> 0 <= oc /\ can_allocate [oc] = inr tt) /\
   (exists kb, kaiming_bound (weight_dims tr ic oc gr ks) = inr kb) /\
   (exists c, to_dtype ls = inr c) /\
   (b = true -> exists fan_in fan_out,
       _calculate_fan_in_and_fan_out (weight_dims tr ic oc gr ks)
         = inr (fan_in, fan_out) /\ 0 < fan_in)).
Proof.
  split.
  - intros (l & g' & E).
    pose proof (init_Ok _ _ _ _ _ _ _ _ _ _ _ _ _ _ _ _ E) as (Hgr & Hic & Hoc & R).
    pose proof (init_allocates _ _ _ _ _ _ _ _ _ _ _ _ _ _ _ _ E) as (Hd & Ha & Hb).
    pose proof (init_converts _ _ _ _ _ _ _ _ _ _ _ _ _ _ _ _ E) as Hc.
    repeat (split; [assumption|]).
    eapply reset_parameters_steps in R; [|reflexivity|reflexivity].
    cbn [bias] in R. destruct R as (kb & Hkb & _ & Hrest).
    split; [exists kb; exact Hkb|]. split; [eexists; exact Hc|].
    intros ->. destruct Hrest as (fi & fo & bm & Hf & Hfi & _).
    exists fi, fo. split; assumption.
  - intros (Hgr & Hic & Hoc & Hdims & Halloc & Hpos & (kb & Hkb) & (c & Hc) & Hfan).
    eapply init_succeeds; eassumption.
Qed.
